(** * MatLayer: the material layer stack of [core/material_layers.py]

    A shallow embedding of the layer slot store, the layer stack state and
    the node-graph helpers of the add-on, with the host application's data
    (active object, materials, node trees, node groups) as an explicit
    state that every function threads through.

    Python integers are [Z], a Python string is the [string] of the bytes of
    its UTF-8 encoding, [None] is [option]'s [None].  A Python exception leaves the state as it was at the
    point of the raise, so an outcome carries the state in both cases. *)

From stdpp Require Import base list strings pretty.
From Stdlib Require Import ZArith Lia Ascii.

Local Open Scope Z_scope.

(** ** Python built-ins *)

(** [str(i)] on an integer: decimal digits, a leading minus sign for
    negative numbers. *)
Definition str (i : Z) : string := pretty i.

(** The exceptions that the modelled code can run into. *)
Inductive exn : Type :=
| AttributeError   (* attribute access on [None] *)
| TypeError        (* [None] passed where the host wants a socket *)
| IndexError.      (* subscript out of range *)

(** ** Names

    [format_layer_group_node_name]: ["{0}_{1}".format(name, index)]. *)
Definition format_layer_group_node_name
  (active_material_name : string) (layer_index : Z) : string :=
  active_material_name +:+ "_" +:+ str layer_index.

(** A string without the separator character. *)
Fixpoint no_underscore (s : string) : Prop :=
  match s with
  | EmptyString => True
  | String c s' => c ≠ "_"%char ∧ no_underscore s'
  end.

(** A string of ASCII characters only. *)
Fixpoint ascii_only (s : string) : bool :=
  match s with
  | EmptyString => true
  | String c s' => (nat_of_ascii c <? 128)%nat && ascii_only s'
  end.

(** [s.upper()] on a string of ASCII characters: the letters a to z become
    A to Z.  (On other strings [str.upper] follows the Unicode tables, which
    are not modelled: the statements about upper-cased names below are for
    ASCII names.) *)
Definition upper_char (c : ascii) : ascii :=
  let n := nat_of_ascii c in
  if ((97 <=? n) && (n <=? 122))%nat then ascii_of_nat (n - 32) else c.

Fixpoint upper (s : string) : string :=
  match s with
  | EmptyString => EmptyString
  | String c s' => String (upper_char c) (upper s')
  end.

(** ** The host's data: nodes, node trees, materials, objects *)

Module NodeSocket.
(** A socket is known by the node it sits on and its own name. *)
Record t : Type := mk { node : string; name : string }.

#[global] Instance eq_dec : EqDecision t.
Proof. solve_decision. Defined.
End NodeSocket.

Module NodeLink.
Record t : Type := mk { from_socket : NodeSocket.t; to_socket : NodeSocket.t }.
End NodeLink.

Module Node.
Record t : Type := mk {
  name : string;
  label : string;
  bl_idname : string;
  node_tree : option string;     (* the node group a group node shows *)
  inputs : list string;
  outputs : list string;
  width : Z;
  location : Z * Z
}.

Definition set_name (v : string) (n : t) : t :=
  mk v (label n) (bl_idname n) (node_tree n) (inputs n) (outputs n)
     (width n) (location n).
Definition set_label (v : string) (n : t) : t :=
  mk (name n) v (bl_idname n) (node_tree n) (inputs n) (outputs n)
     (width n) (location n).
Definition set_width (v : Z) (n : t) : t :=
  mk (name n) (label n) (bl_idname n) (node_tree n) (inputs n) (outputs n)
     v (location n).
Definition set_location (v : Z * Z) (n : t) : t :=
  mk (name n) (label n) (bl_idname n) (node_tree n) (inputs n) (outputs n)
     (width n) v.
End Node.

Module NodeTree.
(** A node tree: the graph of a material, or a node group of [bpy.data].
    [inputs] and [outputs] are the sockets a group shows on the group nodes
    that use it. *)
Record t : Type := mk {
  name : string;
  nodes : list Node.t;
  links : list NodeLink.t;
  inputs : list string;
  outputs : list string
}.

Definition set_name (v : string) (g : t) : t :=
  mk v (nodes g) (links g) (inputs g) (outputs g).
Definition set_nodes (v : list Node.t) (g : t) : t :=
  mk (name g) v (links g) (inputs g) (outputs g).
Definition set_links (v : list NodeLink.t) (g : t) : t :=
  mk (name g) (nodes g) v (inputs g) (outputs g).
End NodeTree.

Module Material.
Record t : Type := mk { name : string; node_tree : NodeTree.t }.

Definition set_name (v : string) (m : t) : t := mk v (node_tree m).
Definition set_node_tree (v : NodeTree.t) (m : t) : t := mk (name m) v.
End Material.

Module Object.
(** [material_slots] holds the material of each slot, [None] for an empty
    slot; [type] is the host's geometry type (['MESH'], ['CAMERA'], ...). *)
Record t : Type := mk {
  name : string;
  type : string;
  material_slots : list (option Material.t);
  active_material_index : nat
}.

Definition set_material_slots (v : list (option Material.t)) (o : t) : t :=
  mk (name o) (type o) v (active_material_index o).
Definition set_active_material_index (v : nat) (o : t) : t :=
  mk (name o) (type o) (material_slots o) v.

(** [obj.active_material]: the material of the active slot, [None] when
    there is no such slot or it is empty. *)
Definition active_material (o : t) : option Material.t :=
  match material_slots o !! active_material_index o with
  | Some (Some m) => Some m
  | _ => None
  end.
End Object.

(** [nodes.get(key)]: the node of that name, [None] when there is none. *)
Definition nodes_get (nodes : list Node.t) (key : string) : option Node.t :=
  List.find (λ n, bool_decide (Node.name n = key)) nodes.

(** [bpy.data.node_groups.get(key)]. *)
Definition node_groups_get (groups : list NodeTree.t) (key : string)
  : option NodeTree.t :=
  List.find (λ g, bool_decide (NodeTree.name g = key)) groups.

(** [node.outputs.get(key)] and [node.inputs.get(key)]. *)
Definition sockets_get (node : string) (sockets : list string) (key : string)
  : option NodeSocket.t :=
  if bool_decide (key ∈ sockets) then Some (NodeSocket.mk node key) else None.

(** Change the node that [nodes.get(key)] returns, in place. *)
Fixpoint nodes_update (key : string) (f : Node.t → Node.t)
  (nodes : list Node.t) : list Node.t :=
  match nodes with
  | [] => []
  | n :: rest =>
      if bool_decide (Node.name n = key) then f n :: rest
      else n :: nodes_update key f rest
  end.

(** [links.new(output, input)]: an input socket takes one link, so the new
    link replaces the one that ended there. *)
Definition links_new (output input : NodeSocket.t) (links : list NodeLink.t)
  : list NodeLink.t :=
  filter (λ l, NodeLink.to_socket l ≠ input) links
    ++ [NodeLink.mk output input].

(** ** The layer slot store and the layer stack state *)

Module MATLAYER_layers.
(** One slot of [scene.matlayer_layers]; [name] is every property group's
    name, which the collection's [find] searches. *)
Record t : Type := mk { name : string; hidden : bool }.

Definition set_name (v : string) (l : t) : t := mk v (hidden l).
End MATLAYER_layers.

Module MATLAYER_layer_stack.
(** The declared properties of the layer stack, and [layer_index]: an
    attribute that the code assigns although the class does not declare it
    (its value is kept here so that the assignment can be seen; nothing
    reads it). *)
Record t : Type := mk {
  selected_layer_index : Z;
  material_channel_preview : bool;
  node_default_width : Z;
  node_spacing : Z;
  selected_material_channel : string;
  layer_property_tab : string;
  material_property_tab : string;
  mask_property_tab : string;
  layer_index : option Z
}.

Definition default : t :=
  mk (-1) false 250 80 "COLOR" "MATERIAL" "MATERIAL" "FILTERS" None.

Definition set_layer_index (v : Z) (s : t) : t :=
  mk (selected_layer_index s) (material_channel_preview s)
     (node_default_width s) (node_spacing s) (selected_material_channel s)
     (layer_property_tab s) (material_property_tab s) (mask_property_tab s)
     (Some v).
End MATLAYER_layer_stack.

(** [len(layers)]. *)
Definition len {A : Type} (l : list A) : Z := Z.of_nat (length l).

(** The host's collection operations on [scene.matlayer_layers].

    [layers.add()] appends an item with the declared defaults. *)
Definition collection_add (layers : list MATLAYER_layers.t)
  : list MATLAYER_layers.t :=
  layers ++ [MATLAYER_layers.mk "" false].

(** [layers.find(key)]: the index of the first item of that name, [-1]
    when there is none. *)
Fixpoint collection_find (layers : list MATLAYER_layers.t) (key : string) : Z :=
  match layers with
  | [] => -1
  | l :: rest =>
      if bool_decide (MATLAYER_layers.name l = key) then 0
      else let i := collection_find rest key in
           if bool_decide (i = -1) then -1 else i + 1
  end.

(** [layers.remove(index)]: the item at [index] goes; an index outside the
    collection leaves it alone. *)
Definition collection_remove (index : Z) (layers : list MATLAYER_layers.t)
  : list MATLAYER_layers.t :=
  if bool_decide (0 ≤ index < len layers) then delete (Z.to_nat index) layers
  else layers.

(** [layers.move(from, to)]: the item at [from] is taken out and put back at
    [to]; nothing happens unless both are indices of the collection. *)
Definition collection_move (from to : Z) (layers : list MATLAYER_layers.t)
  : list MATLAYER_layers.t :=
  if bool_decide (0 ≤ from < len layers ∧ 0 ≤ to < len layers ∧ from ≠ to)
  then
    match layers !! Z.to_nat from with
    | Some item =>
        let rest := delete (Z.to_nat from) layers in
        take (Z.to_nat to) rest ++ item :: drop (Z.to_nat to) rest
    | None => layers
    end
  else layers.

(** Assignment to an attribute of the last item (the one [add] returned). *)
Fixpoint update_last {A : Type} (f : A → A) (l : list A) : list A :=
  match l with
  | [] => []
  | [x] => [f x]
  | x :: rest => x :: update_last f rest
  end.

(** ** The state of the host, and the outcome of a call *)

Record bpy : Type := mk_bpy {
  context_active_object : option Object.t;        (* bpy.context.active_object *)
  scene_matlayer_layers : list MATLAYER_layers.t; (* bpy.context.scene.matlayer_layers *)
  scene_matlayer_layer_stack : MATLAYER_layer_stack.t;
  data_node_groups : list NodeTree.t;             (* bpy.data.node_groups *)
  random_draws : list Z;        (* what the next calls of the [random] module draw *)
  reports : list (string * string)  (* what was reported to the user: level, message *)
}.

Definition set_active_object (v : option Object.t) (h : bpy) : bpy :=
  mk_bpy v (scene_matlayer_layers h) (scene_matlayer_layer_stack h)
    (data_node_groups h) (random_draws h) (reports h).
Definition set_matlayer_layers (v : list MATLAYER_layers.t) (h : bpy) : bpy :=
  mk_bpy (context_active_object h) v (scene_matlayer_layer_stack h)
    (data_node_groups h) (random_draws h) (reports h).
Definition set_matlayer_layer_stack (v : MATLAYER_layer_stack.t) (h : bpy) : bpy :=
  mk_bpy (context_active_object h) (scene_matlayer_layers h) v
    (data_node_groups h) (random_draws h) (reports h).
Definition set_node_groups (v : list NodeTree.t) (h : bpy) : bpy :=
  mk_bpy (context_active_object h) (scene_matlayer_layers h)
    (scene_matlayer_layer_stack h) v (random_draws h) (reports h).
Definition set_random_draws (v : list Z) (h : bpy) : bpy :=
  mk_bpy (context_active_object h) (scene_matlayer_layers h)
    (scene_matlayer_layer_stack h) (data_node_groups h) v (reports h).
Definition set_reports (v : list (string * string)) (h : bpy) : bpy :=
  mk_bpy (context_active_object h) (scene_matlayer_layers h)
    (scene_matlayer_layer_stack h) (data_node_groups h) (random_draws h) v.

(** A call returns a value, raises an exception, or does not come back
    within the means of the model ([Diverges]: a loop that the model could
    not run to its end, as when the draws that the state holds have run out
    in the loop of [add_material_layer_slot], where the generator of the
    real run would go on drawing). *)
Inductive outcome (A : Type) : Type :=
| Returns (a : A) (h : bpy)
| Raises (e : exn) (h : bpy)
| Diverges.
Arguments Returns {A} a h.
Arguments Raises {A} e h.
Arguments Diverges {A}.

Definition py (A : Type) : Type := bpy → outcome A.

#[global] Instance py_ret : MRet py := λ A a h, Returns a h.
#[global] Instance py_bind : MBind py := λ A B f m h,
  match m h with
  | Returns a h' => f a h'
  | Raises e h' => Raises e h'
  | Diverges => Diverges
  end.

Definition get : py bpy := λ h, Returns h h.
Definition modify (f : bpy → bpy) : py unit := λ h, Returns tt (f h).
Definition raise {A : Type} (e : exn) : py A := λ h, Raises e h.

(** The result of a loop that the model ran on bounded means. *)
Definition of_loop {A : Type} (r : option A) : py A :=
  match r with
  | Some a => mret a
  | None => λ _, Diverges
  end.

(** [x.attr] where [x] may be [None]. *)
Definition attr_of {A : Type} (x : option A) : py A :=
  match x with
  | Some a => mret a
  | None => raise AttributeError
  end.

(** [bpy.context.active_object.active_material]: an [AttributeError] when
    there is no active object. *)
Definition active_object_active_material : py (option Material.t) :=
  h ← get;
  active_object ← attr_of (context_active_object h);
  mret (Object.active_material active_object).

Definition modify_layers
  (f : list MATLAYER_layers.t → list MATLAYER_layers.t) : py unit :=
  modify (λ h, set_matlayer_layers (f (scene_matlayer_layers h)) h).

Definition modify_layer_stack
  (f : MATLAYER_layer_stack.t → MATLAYER_layer_stack.t) : py unit :=
  modify (λ h, set_matlayer_layer_stack (f (scene_matlayer_layer_stack h)) h).

(** A change of the active material, which lives in the active slot of the
    active object. *)
Definition set_active_material (m : Material.t) (o : Object.t) : Object.t :=
  Object.set_material_slots
    (<[Object.active_material_index o := Some m]> (Object.material_slots o)) o.

Definition map_active_node_tree (f : NodeTree.t → NodeTree.t) (h : bpy) : bpy :=
  match context_active_object h with
  | Some o =>
      match Object.active_material o with
      | Some m =>
          let m' := Material.set_node_tree (f (Material.node_tree m)) m in
          set_active_object (Some (set_active_material m' o)) h
      | None => h
      end
  | None => h
  end.

Definition modify_active_node_tree (f : NodeTree.t → NodeTree.t) : py unit :=
  modify (map_active_node_tree f).

(** ** The layer slot store *)

(** [random.randrange(start, stop)] for the raw value that the generator
    yields next: some integer from [start] up to [stop - 1]. *)
Definition randrange (start stop raw : Z) : Z := start + raw `mod` (stop - start).

(** The loop of [add_material_layer_slot] that draws a slot id until
    [layers.find] does not know it.  It runs on the draws that are left, and
    has no result when they run out before a free id came up. *)
Fixpoint draw_unique_slot_id (layers : list MATLAYER_layers.t)
  (draws : list Z) : option (string * list Z) :=
  match draws with
  | [] => None
  | raw :: draws' =>
      let unique_random_slot_id := str (randrange 0 999999 raw) in
      if bool_decide (collection_find layers unique_random_slot_id ≠ -1)
      then draw_unique_slot_id layers draws'
      else Some (unique_random_slot_id, draws')
  end.

Definition unique_random_slot_id : py string :=
  h ← get;
  '(id, draws') ← of_loop
    (draw_unique_slot_id (scene_matlayer_layers h) (random_draws h));
  modify (set_random_draws draws');;
  mret id.

(** [add_material_layer_slot()].  Both branches end with an assignment to
    the local [selected_layer_index], which nothing reads afterwards; the
    function returns the property [selected_layer_index] of the stack. *)
Definition add_material_layer_slot : py Z :=
  h ← get;
  let selected_layer_index :=
    MATLAYER_layer_stack.selected_layer_index (scene_matlayer_layer_stack h) in
  modify_layers collection_add;;
  id ← unique_random_slot_id;
  modify_layers (update_last (MATLAYER_layers.set_name id));;
  h ← get;
  let layers := scene_matlayer_layers h in
  (if bool_decide (selected_layer_index < 0) then
     let move_index := len layers - 1 in
     let move_to_index := 0 in
     modify_layers (collection_move move_index move_to_index);;
     modify_layer_stack (MATLAYER_layer_stack.set_layer_index move_to_index)
   else
     let move_index := len layers - 1 in
     let move_to_index :=
       Z.max 0 (Z.min (selected_layer_index + 1) (len layers - 1)) in
     modify_layers (collection_move move_index move_to_index);;
     modify_layer_stack (MATLAYER_layer_stack.set_layer_index move_to_index));;
  h ← get;
  mret (MATLAYER_layer_stack.selected_layer_index (scene_matlayer_layer_stack h)).

(** ** The node graph *)

(** The loop of [read_total_layers]: [layer_count] goes up while the node
    tree has a node of that name. *)
Fixpoint count_layer_nodes (fuel : nat) (nodes : list Node.t) (layer_count : Z)
  : option Z :=
  match fuel with
  | O => None
  | S fuel' =>
      match nodes_get nodes (str layer_count) with
      | Some _ => count_layer_nodes fuel' nodes (layer_count + 1)
      | None => Some layer_count
      end
  end.

(** [read_total_layers()]: the count starts at 1.  One more round than the
    tree has nodes is always enough for the loop (see
    [count_layer_nodes_terminates]). *)
Definition read_total_layers : py Z :=
  active_material ← active_object_active_material;
  active_material ← attr_of active_material;
  let nodes := NodeTree.nodes (Material.node_tree active_material) in
  of_loop (count_layer_nodes (S (length nodes)) nodes 1).

(** [get_material_layer_node(layer_node_name, layer_index,
    material_channel_name)]; the Python default of the last argument is
    ['Color']. *)
Definition get_material_layer_node (layer_node_name : string)
  (layer_index : Z) (material_channel_name : string) : py (option Node.t) :=
  active_material ← active_object_active_material;
  match active_material with
  | Some active_material =>
      let layer_group_node_name :=
        format_layer_group_node_name (Material.name active_material) layer_index in
      let in_layer_group (node_name : string) : py (option Node.t) :=
        h ← get;
        group ← attr_of (node_groups_get (data_node_groups h) layer_group_node_name);
        mret (nodes_get (NodeTree.nodes group) node_name) in
      if bool_decide (layer_node_name = "LAYER") then
        mret (nodes_get (NodeTree.nodes (Material.node_tree active_material))
                (str layer_index))
      else if bool_decide (layer_node_name = "PROJECTION") then
        in_layer_group "PROJECTION"
      else if bool_decide (layer_node_name = "MIX") then
        in_layer_group (upper material_channel_name +:+ "_MIX")
      else if bool_decide (layer_node_name = "OPACITY") then
        in_layer_group (upper material_channel_name +:+ "_OPACITY")
      else if bool_decide (layer_node_name = "VALUE") then
        in_layer_group (upper material_channel_name +:+ "_VALUE")
      else if bool_decide (layer_node_name = "OUTPUT") then
        in_layer_group "Group Output"
      else if bool_decide (layer_node_name = "INPUT") then
        in_layer_group "Group Input"
      else mret None
  | None => mret None
  end.

(** One round of the loop of [organize_layer_group_nodes]. *)
Definition organize_step (acc : list Node.t * Z) (i : Z) : list Node.t * Z :=
  let '(nodes, position_x) := acc in
  match nodes_get nodes (str i) with
  | Some _ =>
      (nodes_update (str i)
         (λ n, Node.set_location (position_x, 0) (Node.set_width 300 n)) nodes,
       position_x - 500)
  | None => acc
  end.

Definition organize_layer_group_nodes : py unit :=
  _ ← active_object_active_material;
  layer_count ← read_total_layers;
  modify_active_node_tree (λ t,
    NodeTree.set_nodes
      (foldl organize_step (NodeTree.nodes t, -500) (seqZ 0 layer_count)).1 t).

(** [node_tree.links.new(from_node.outputs.get(output),
    to_node.inputs.get(input))]: the arguments are evaluated from left to
    right, then the host refuses a missing socket. *)
Definition link (from_node : option Node.t) (output : string)
  (to_node : option Node.t) (input : string) : py unit :=
  from_node ← attr_of from_node;
  let from_socket :=
    sockets_get (Node.name from_node) (Node.outputs from_node) output in
  to_node ← attr_of to_node;
  let to_socket := sockets_get (Node.name to_node) (Node.inputs to_node) input in
  match from_socket, to_socket with
  | Some o, Some i =>
      modify_active_node_tree (λ t,
        NodeTree.set_links (links_new o i (NodeTree.links t)) t)
  | _, _ => raise TypeError
  end.

Definition connect_layer_group_nodes : py unit :=
  _ ← read_total_layers;
  active_material ← active_object_active_material;
  active_material ← attr_of active_material;
  let nodes := NodeTree.nodes (Material.node_tree active_material) in
  let principled_bsdf := nodes_get nodes "MATLAYER_BSDF" in
  let normal_and_height_mix := nodes_get nodes "NORMAL_HEIGHT_MIX" in
  layer_node ← get_material_layer_node "LAYER" 0 "Color";
  link layer_node "Color" principled_bsdf "Base Color";;
  link layer_node "Subsurface" principled_bsdf "Subsurface";;
  link layer_node "Metallic" principled_bsdf "Metallic";;
  link layer_node "Specular" principled_bsdf "Specular";;
  link layer_node "Roughness" principled_bsdf "Roughness";;
  link layer_node "Emission" principled_bsdf "Emission";;
  link layer_node "Alpha" principled_bsdf "Alpha";;
  link layer_node "Normal" normal_and_height_mix "Normal";;
  link layer_node "Height" normal_and_height_mix "Height".

(** ** The operators *)

(** What [execute] returns: the set [{'FINISHED'}]. *)
Inductive operator_return : Type := FINISHED.

(** Modelled from the spec: [blender_addon_utils.log_status] is not among
    the sources; by the spec a failed precondition is "reported to the user
    as a message".  The message is put on [reports] with its level. *)
Definition log_status (message level : string) : py unit :=
  modify (λ h, set_reports (reports h ++ [(level, message)]) h).

(** The other functions of [blender_addon_utils] that the operators call,
    which are not among the sources either.  They work on the host's node
    groups: [append_default_node_groups()] adds the default groups,
    [append_material(name)] and [append_node_group(name, never_auto_delete)]
    fetch a template by name and give it back, or [None]. *)
Record blender_addon_utils : Type := {
  append_default_node_groups : list NodeTree.t → list NodeTree.t;
  append_material :
    string → list NodeTree.t → option Material.t * list NodeTree.t;
  append_node_group :
    string → bool → list NodeTree.t → option NodeTree.t * list NodeTree.t
}.

(** The host's rule for names.  In a node tree, and in
    [bpy.data.node_groups], no two items bear the same name, and a name has
    at most [name_limit] bytes.  A name that is assigned is first cut to the
    limit, between two characters.  If another item of the collection has
    that name already, the item gets the name with a numbered suffix after
    it, ".001" or the first number from there on that makes the name free,
    the name cut further where the suffix would not fit.  (A name that ends
    in such a suffix itself is numbered on from it; the names that this code
    assigns are a decimal index, or end in an underscore and a decimal
    index, so that this does not arise.) *)
Definition name_limit : nat := 63.

(** A byte that continues a character of more than one byte. *)
Definition is_continuation (c : ascii) : bool :=
  ((128 <=? nat_of_ascii c) && (nat_of_ascii c <? 192))%nat.

(** From a reversed string, the continuation bytes at its front and the
    byte after them: the bytes of a character that was cut in two. *)
Fixpoint drop_partial (reversed : string) : string :=
  match reversed with
  | EmptyString => EmptyString
  | String c rest => if is_continuation c then drop_partial rest else rest
  end.

(** The longest prefix of whole characters with at most [limit] bytes. *)
Definition clip (limit : nat) (name : string) : string :=
  if bool_decide (String.length name ≤ limit)%nat then name
  else
    match String.get limit name with
    | Some c =>
        if is_continuation c
        then String.rev (drop_partial (String.rev (String.substring 0 limit name)))
        else String.substring 0 limit name
    | None => name
    end.

Definition name_suffix (k : Z) : string :=
  "." +:+ (if bool_decide (k < 10) then "00"
           else if bool_decide (k < 100) then "0" else "") +:+ str k.

Definition suffixed (name : string) (k : Z) : string :=
  clip (name_limit - String.length (name_suffix k)) name +:+ name_suffix k.

Fixpoint first_free_name (fuel : nat) (taken : list string) (name : string)
  (k : Z) : string :=
  match fuel with
  | O => suffixed name k
  | S fuel' =>
      if bool_decide (suffixed name k ∈ taken)
      then first_free_name fuel' taken name (k + 1)
      else suffixed name k
  end.

(** The name that an item gets when it is given [name] and the other items
    bear the names [taken].  Among [length taken + 1] numbers one is free,
    so the search ends on a free name ([unique_name_fresh]). *)
Definition unique_name (taken : list string) (name : string) : string :=
  let name := clip name_limit name in
  if bool_decide (name ∈ taken)
  then first_free_name (length taken) taken name 1
  else name.

(** The names of the node groups other than the one that
    [node_groups.get(key)] finds. *)
Fixpoint other_group_names (key : string) (groups : list NodeTree.t)
  : list string :=
  match groups with
  | [] => []
  | g :: rest =>
      if bool_decide (NodeTree.name g = key) then NodeTree.name <$> rest
      else NodeTree.name g :: other_group_names key rest
  end.

(** Assignment to the name of the node group that [node_groups.get(key)]
    finds in [bpy.data.node_groups]; [new_name] is the name that the host
    has settled on, [unique_name] of the name assigned among
    [other_group_names]. *)
Fixpoint node_groups_rename (key new_name : string) (groups : list NodeTree.t)
  : list NodeTree.t :=
  match groups with
  | [] => []
  | g :: rest =>
      if bool_decide (NodeTree.name g = key)
      then NodeTree.set_name new_name g :: rest
      else g :: node_groups_rename key new_name rest
  end.

(** [nodes.new(type)]: a node of that type at the end of the tree, under the
    host's name for it. *)
Definition nodes_new (type : string) (nodes : list Node.t) : list Node.t :=
  nodes ++ [Node.mk (unique_name (Node.name <$> nodes) "Group") "" type None
              [] [] 140 (0, 0)].

(** [node.node_tree = group]: the group node takes the sockets of the
    group. *)
Definition set_node_tree (group : NodeTree.t) (n : Node.t) : Node.t :=
  Node.mk (Node.name n) (Node.label n) (Node.bl_idname n)
    (Some (NodeTree.name group)) (NodeTree.inputs group)
    (NodeTree.outputs group) (Node.width n) (Node.location n).

Definition modify_active_object (f : Object.t → Object.t) : py unit :=
  modify (λ h, set_active_object (f <$> context_active_object h) h).

(** [poll]: every operator of the file has the same one, and the host runs
    [execute] only when it gives something true. *)
Definition poll (h : bpy) : option Object.t := context_active_object h.

Section Operators.
Context (utils : blender_addon_utils).

Definition call_append_material (name : string) : py (option Material.t) :=
  h ← get;
  let '(material, groups) := append_material utils name (data_node_groups h) in
  modify (set_node_groups groups);;
  mret material.

Definition call_append_node_group (name : string) (never_auto_delete : bool)
  : py (option NodeTree.t) :=
  h ← get;
  let '(group, groups) :=
    append_node_group utils name never_auto_delete (data_node_groups h) in
  modify (set_node_groups groups);;
  mret group.

(** [MATLAYER_OT_add_material_layer.execute].  The names that it assigns to
    the node group and to the new node go through the host's rule for
    names.  The materials of [bpy.data.materials] are not part of the state:
    the new material bears the name of the object as it is assigned. *)
Definition MATLAYER_OT_add_material_layer_execute : py operator_return :=
  h ← get;
  let active_object := context_active_object h in
  modify (λ h, set_node_groups
                 (append_default_node_groups utils (data_node_groups h)) h);;
  obj ← attr_of active_object;
  if bool_decide (Object.type obj ≠ "MESH") then
    log_status "Selected object must be a mesh to add materials" "ERROR";;
    mret FINISHED
  else
    (if bool_decide (len (Object.material_slots obj) = 0) then
       new_material ← call_append_material "DefaultMatLayerMaterial";
       new_material ← attr_of new_material;
       let new_material := Material.set_name (Object.name obj) new_material in
       modify_active_object (λ o,
         Object.set_active_material_index 0%nat
           (Object.set_material_slots
              (Object.material_slots o ++ [Some new_material]) o))
     else
       slot ← match Object.material_slots obj !! Object.active_material_index obj with
              | Some slot => mret slot
              | None => raise IndexError
              end;
       match slot with
       | None =>
           new_material ← call_append_material "DefaultMatLayerMaterial";
           new_material ← attr_of new_material;
           let new_material := Material.set_name (Object.name obj) new_material in
           modify_active_object (set_active_material new_material)
       | Some _ => mret tt
       end);;
    new_layer_slot_index ← add_material_layer_slot;
    active_material ← active_object_active_material;
    default_layer_node_group ← call_append_node_group "ML_DefaultLayer" true;
    active_material ← attr_of active_material;
    let group_name :=
      format_layer_group_node_name (Material.name active_material)
        new_layer_slot_index in
    default_layer_node_group ← attr_of default_layer_node_group;
    h ← get;
    let group_name :=
      unique_name
        (other_group_names (NodeTree.name default_layer_node_group)
           (data_node_groups h)) group_name in
    modify (λ h, set_node_groups
                   (node_groups_rename (NodeTree.name default_layer_node_group)
                      group_name (data_node_groups h)) h);;
    let default_layer_node_group :=
      NodeTree.set_name group_name default_layer_node_group in
    modify_active_node_tree (λ t,
      NodeTree.set_nodes (nodes_new "ShaderNodeGroup" (NodeTree.nodes t)) t);;
    modify_active_node_tree (λ t,
      NodeTree.set_nodes
        (update_last
           (λ n, Node.set_label ("Layer " +:+ str new_layer_slot_index)
                   (Node.set_name
                      (unique_name
                         (Node.name <$> removelast (NodeTree.nodes t))
                         (str new_layer_slot_index))
                      (set_node_tree default_layer_node_group n)))
           (NodeTree.nodes t)) t);;
    organize_layer_group_nodes;;
    connect_layer_group_nodes;;
    mret FINISHED.

End Operators.

(** [MATLAYER_OT_add_paint_material_layer.execute]. *)
Definition MATLAYER_OT_add_paint_material_layer_execute : py operator_return :=
  mret FINISHED.

(** [MATLAYER_OT_add_decal_material_layer.execute]. *)
Definition MATLAYER_OT_add_decal_material_layer_execute : py operator_return :=
  mret FINISHED.

(** [MATLAYER_OT_delete_layer.execute]. *)
Definition MATLAYER_OT_delete_layer_execute : py operator_return :=
  h ← get;
  let selected_layer_index :=
    MATLAYER_layer_stack.selected_layer_index (scene_matlayer_layer_stack h) in
  modify_layers (collection_remove selected_layer_index);;
  h ← get;
  let layers := scene_matlayer_layers h in
  modify_layer_stack
    (MATLAYER_layer_stack.set_layer_index
       (Z.max (Z.min (selected_layer_index - 1) (len layers - 1)) 0));;
  mret FINISHED.

(** [MATLAYER_OT_duplicate_layer.execute]. *)
Definition MATLAYER_OT_duplicate_layer_execute : py operator_return :=
  mret FINISHED.

(** [MATLAYER_OT_move_material_layer.execute]; [direction] is the
    operator's string property, ['UP'] unless the caller sets it. *)
Definition MATLAYER_OT_move_material_layer_execute (direction : string)
  : py operator_return :=
  mret FINISHED.

(** The commands that the layer buttons of the panel run. *)
Inductive layer_command : Type :=
| add_material_layer
| add_paint_material_layer
| add_decal_material_layer
| delete_layer
| duplicate_layer
| move_material_layer (direction : string).

Definition execute (utils : blender_addon_utils) (c : layer_command)
  : py operator_return :=
  match c with
  | add_material_layer => MATLAYER_OT_add_material_layer_execute utils
  | add_paint_material_layer => MATLAYER_OT_add_paint_material_layer_execute
  | add_decal_material_layer => MATLAYER_OT_add_decal_material_layer_execute
  | delete_layer => MATLAYER_OT_delete_layer_execute
  | duplicate_layer => MATLAYER_OT_duplicate_layer_execute
  | move_material_layer direction =>
      MATLAYER_OT_move_material_layer_execute direction
  end.

(** ** Vocabulary of the statements *)

(** The ids of the slots of a store, in order. *)
Definition slot_ids (layers : list MATLAYER_layers.t) : list string :=
  MATLAYER_layers.name <$> layers.

(** The store after [layers.add()] and the assignment of the new id. *)
Definition slot_added (id : string) (layers : list MATLAYER_layers.t) :=
  update_last (MATLAYER_layers.set_name id) (collection_add layers).

(** Where [add_material_layer_slot] moves the new slot. *)
Definition move_target (selected_layer_index count : Z) : Z :=
  if bool_decide (selected_layer_index < 0) then 0
  else Z.max 0 (Z.min (selected_layer_index + 1) (count - 1)).

(** [n] calls of [add_material_layer_slot] in a row. *)
Fixpoint add_material_layer_slots (n : nat) : py unit :=
  match n with
  | O => mret tt
  | S n' => add_material_layer_slot;; add_material_layer_slots n'
  end.

(** The slot ids that a list of draws stands for. *)
Definition drawn_ids (draws : list Z) : list string :=
  (λ raw, str (randrange 0 999999 raw)) <$> draws.

(** [scene.matlayer_layer_stack.selected_layer_index]. *)
Definition selected (h : bpy) : Z :=
  MATLAYER_layer_stack.selected_layer_index (scene_matlayer_layer_stack h).

(** ** Sample data for the concrete cases *)

Definition slot (id : string) : MATLAYER_layers.t := MATLAYER_layers.mk id false.

(** A layer stack with the declared defaults and the given selection. *)
Definition layer_stack_at (selected_layer_index : Z) : MATLAYER_layer_stack.t :=
  MATLAYER_layer_stack.mk selected_layer_index false 250 80 "COLOR"
    "MATERIAL" "MATERIAL" "FILTERS" None.

(** A scene without an active object. *)
Definition scene_only (layers : list MATLAYER_layers.t)
  (selected_layer_index : Z) (draws : list Z) : bpy :=
  mk_bpy None layers (layer_stack_at selected_layer_index) [] draws [].

Definition channel_outputs : list string :=
  ["Color"; "Subsurface"; "Metallic"; "Specular"; "Roughness"; "Emission";
   "Alpha"; "Normal"; "Height"].

(** The group node of a layer, with the outputs of the layer template. *)
Definition layer_group_node (name : string) : Node.t :=
  Node.mk name "" "ShaderNodeGroup" None [] channel_outputs 140 (0, 0).

Definition principled_bsdf_node : Node.t :=
  Node.mk "MATLAYER_BSDF" "" "ShaderNodeBsdfPrincipled" None
    ["Base Color"; "Subsurface"; "Metallic"; "Specular"; "Roughness";
     "Emission"; "Alpha"] ["BSDF"] 140 (0, 0).

Definition normal_height_mix_node : Node.t :=
  Node.mk "NORMAL_HEIGHT_MIX" "" "ShaderNodeGroup" None
    ["Normal"; "Height"] ["Normal"] 140 (0, 0).

Definition material_of (nodes : list Node.t) : Material.t :=
  Material.mk "Wood" (NodeTree.mk "Shader Nodetree" nodes [] [] []).

(** An object of the given geometry type with one material slot. *)
Definition object_of (type : string) (nodes : list Node.t) : Object.t :=
  Object.mk "Cube" type [Some (material_of nodes)] 0.

(** A scene whose active object is [object_of type nodes]. *)
Definition editing (type : string) (nodes : list Node.t)
  (layers : list MATLAYER_layers.t) (selected_layer_index : Z) : bpy :=
  mk_bpy (Some (object_of type nodes)) layers
    (layer_stack_at selected_layer_index) [] [] [].

(** The nodes of the active material's node tree, when there is one. *)
Definition active_nodes (h : bpy) : option (list Node.t) :=
  o ← context_active_object h;
  m ← Object.active_material o;
  Some (NodeTree.nodes (Material.node_tree m)).

(** The links of the active material's node tree. *)
Definition active_links (h : bpy) : option (list NodeLink.t) :=
  o ← context_active_object h;
  m ← Object.active_material o;
  Some (NodeTree.links (Material.node_tree m)).

(** The kinds of node that [get_material_layer_node] knows. *)
Definition recognized_kinds : list string :=
  ["LAYER"; "PROJECTION"; "MIX"; "OPACITY"; "VALUE"; "OUTPUT"; "INPUT"].

(** The state with the links of the active material's node tree taken out:
    two states with the same [without_links] differ in those links at
    most. *)
Definition without_links (h : bpy) : bpy :=
  map_active_node_tree (NodeTree.set_links []) h.

(** A call that, however it ends, has changed nothing but links of the
    active material's node tree. *)
Definition only_links {A : Type} (m : py A) : Prop :=
  ∀ h, match m h with
       | Returns _ h' | Raises _ h' => without_links h' = without_links h
       | Diverges => False
       end.

(** A call that has changed nothing at all when it ends. *)
Definition reads_only {A : Type} (m : py A) : Prop :=
  ∀ h, match m h with
       | Returns _ h' | Raises _ h' => h' = h
       | Diverges => False
       end.

(** The kinds of node that [get_material_layer_node] looks up in the node
    group of the layer. *)
Definition group_kinds : list string :=
  ["PROJECTION"; "MIX"; "OPACITY"; "VALUE"; "OUTPUT"; "INPUT"].

(** A precondition of the layer commands fails: no active object, or an
    active object that is not a mesh. *)
Definition precondition_failed (h : bpy) : Prop :=
  match context_active_object h with
  | None => True
  | Some o => Object.type o ≠ "MESH"
  end.

(** A small template library to run the operators on: the default layer
    group with the nine channel outputs, and the default material with the
    shader node and the normal and height mix node.  Appending is by name
    and does not duplicate what is there. *)
Definition default_layer_group : NodeTree.t :=
  NodeTree.mk "ML_DefaultLayer"
    [Node.mk "PROJECTION" "" "ShaderNodeGroup" None [] [] 140 (0, 0);
     Node.mk "Group Input" "" "NodeGroupInput" None [] [] 140 (0, 0);
     Node.mk "Group Output" "" "NodeGroupOutput" None channel_outputs [] 140 (0, 0)]
    [] [] channel_outputs.

Definition default_material : Material.t :=
  Material.mk "DefaultMatLayerMaterial"
    (NodeTree.mk "Shader Nodetree"
       [principled_bsdf_node; normal_height_mix_node] [] [] []).

Definition template_library : blender_addon_utils := {|
  append_default_node_groups groups :=
    match node_groups_get groups "ML_DefaultLayer" with
    | Some _ => groups
    | None => groups ++ [default_layer_group]
    end;
  append_material name groups :=
    (if bool_decide (name = "DefaultMatLayerMaterial")
     then Some default_material else None, groups);
  append_node_group name never_auto_delete groups :=
    match node_groups_get groups name with
    | Some g => (Some g, groups)
    | None =>
        if bool_decide (name = "ML_DefaultLayer")
        then (Some default_layer_group, groups ++ [default_layer_group])
        else (None, groups)
    end
|}.

(** ** More of the node graph *)

(** [get_layer_group_node(layer_index)]: what it returns is the name of the
    layer's node group. *)
Definition get_layer_group_node (layer_index : Z) : py string :=
  active_material ← active_object_active_material;
  active_material ← attr_of active_material;
  mret (format_layer_group_node_name (Material.name active_material)
          layer_index).

(** The name of the node that [get_material_layer_node] asks for. *)
Definition node_key (layer_node_name : string) (layer_index : Z)
  (material_channel_name : string) : string :=
  if bool_decide (layer_node_name = "LAYER") then str layer_index
  else if bool_decide (layer_node_name = "PROJECTION") then "PROJECTION"
  else if bool_decide (layer_node_name = "MIX")
       then upper material_channel_name +:+ "_MIX"
  else if bool_decide (layer_node_name = "OPACITY")
       then upper material_channel_name +:+ "_OPACITY"
  else if bool_decide (layer_node_name = "VALUE")
       then upper material_channel_name +:+ "_VALUE"
  else if bool_decide (layer_node_name = "OUTPUT") then "Group Output"
  else "Group Input".

(** The nodes among which [get_material_layer_node] looks: those of the
    material's tree for a layer node, those of the layer's node group for
    the other kinds. *)
Definition searched_nodes (h : bpy) (m : Material.t)
  (layer_node_name : string) (layer_index : Z) : option (list Node.t) :=
  if bool_decide (layer_node_name = "LAYER")
  then Some (NodeTree.nodes (Material.node_tree m))
  else NodeTree.nodes <$>
         node_groups_get (data_node_groups h)
           (format_layer_group_node_name (Material.name m) layer_index).

(** The node tree of the active material, when there is one. *)
Definition active_tree (h : bpy) : option NodeTree.t :=
  o ← context_active_object h;
  m ← Object.active_material o;
  Some (Material.node_tree m).

(** A node as [organize_layer_group_nodes] leaves it at the abscissa [x]. *)
Definition placed (x : Z) (n : Node.t) : Node.t :=
  Node.set_location (x, 0) (Node.set_width 300 n).

(** The nodes after the loop of [organize_layer_group_nodes] for a count of
    [layer_count]. *)
Definition organized (layer_count : Z) (nodes : list Node.t) : list Node.t :=
  (foldl organize_step (nodes, -500) (seqZ 0 layer_count)).1.

(** The lowest layer index that [organize_layer_group_nodes] finds a node
    for: 0 when the tree has a node "0", else 1. *)
Definition first_layer (nodes : list Node.t) : Z :=
  match nodes_get nodes "0" with Some _ => 0 | None => 1 end.

(** The nine links of [connect_layer_group_nodes], in the order in which
    it makes them. *)
Definition channel_link (output to_node input : string) : NodeLink.t :=
  NodeLink.mk (NodeSocket.mk "0" output) (NodeSocket.mk to_node input).

Definition channel_links : list NodeLink.t :=
  [channel_link "Color" "MATLAYER_BSDF" "Base Color";
   channel_link "Subsurface" "MATLAYER_BSDF" "Subsurface";
   channel_link "Metallic" "MATLAYER_BSDF" "Metallic";
   channel_link "Specular" "MATLAYER_BSDF" "Specular";
   channel_link "Roughness" "MATLAYER_BSDF" "Roughness";
   channel_link "Emission" "MATLAYER_BSDF" "Emission";
   channel_link "Alpha" "MATLAYER_BSDF" "Alpha";
   channel_link "Normal" "NORMAL_HEIGHT_MIX" "Normal";
   channel_link "Height" "NORMAL_HEIGHT_MIX" "Height"].

(** The links of a tree after [connect_layer_group_nodes]: those that end
    at none of the nine inputs, then the nine. *)
Definition connected (links : list NodeLink.t) : list NodeLink.t :=
  filter (λ l, NodeLink.to_socket l ∉ NodeLink.to_socket <$> channel_links)
    links ++ channel_links.

(** The nodes that [connect_layer_group_nodes] needs, with the sockets it
    asks them for. *)
Definition connectable (nodes : list Node.t) : Prop :=
  ∃ layer_node principled_bsdf normal_and_height_mix,
    nodes_get nodes "0" = Some layer_node ∧
    nodes_get nodes "MATLAYER_BSDF" = Some principled_bsdf ∧
    nodes_get nodes "NORMAL_HEIGHT_MIX" = Some normal_and_height_mix ∧
    channel_outputs ⊆ Node.outputs layer_node ∧
    ["Base Color"; "Subsurface"; "Metallic"; "Specular"; "Roughness";
     "Emission"; "Alpha"] ⊆ Node.inputs principled_bsdf ∧
    ["Normal"; "Height"] ⊆ Node.inputs normal_and_height_mix.

(** ** The commands one after the other *)

(** The state that a call leaves, when it ends. *)
Definition state_after {A : Type} (o : outcome A) : option bpy :=
  match o with
  | Returns _ h' | Raises _ h' => Some h'
  | Diverges => None
  end.

(** The commands of a list run one after the other, each on the state that
    the one before left, whether that one returned or raised. *)
Fixpoint run_commands (utils : blender_addon_utils) (cs : list layer_command)
  (h : bpy) : option bpy :=
  match cs with
  | [] => Some h
  | c :: cs' =>
      match state_after (execute utils c h) with
      | Some h' => run_commands utils cs' h'
      | None => None
      end
  end.

(** The slot store and the layer stack state are the same in two states. *)
Definition store_untouched (h h' : bpy) : Prop :=
  scene_matlayer_layers h' = scene_matlayer_layers h ∧
  scene_matlayer_layer_stack h' = scene_matlayer_layer_stack h.

(** A call that leaves the slot store and the layer stack state as they
    were, however it ends. *)
Definition keeps_store {A : Type} (m : py A) : Prop :=
  ∀ h, match state_after (m h) with
       | Some h' => store_untouched h h'
       | None => True
       end.

(** A call that touches the slot store and the layer stack state through
    one call of [add_material_layer_slot] at most. *)
Definition adds_at_most_once {A : Type} (m : py A) : Prop :=
  ∀ h, match state_after (m h) with
       | Some h' =>
           store_untouched h h' ∨
           ∃ h1 h2 idx, store_untouched h h1 ∧
                        add_material_layer_slot h1 = Returns idx h2 ∧
                        store_untouched h2 h'
       | None => True
       end.

(** Two nodes that differ in width and location at most. *)
Definition same_but_layout (n n' : Node.t) : Prop :=
  Node.set_location (0, 0) (Node.set_width 0 n')
  = Node.set_location (0, 0) (Node.set_width 0 n).

(** The kinds of node whose name has the material channel in it. *)
Definition channel_kinds : list string := ["MIX"; "OPACITY"; "VALUE"].

(** A scene for the lookups in a layer's node group: the node group of
    layer 3 of the material "Wood", with the mix node of the colour
    channel. *)
Definition color_mix_node : Node.t :=
  Node.mk "COLOR_MIX" "" "ShaderNodeMixRGB" None [] [] 140 (0, 0).

Definition mixing : bpy :=
  set_node_groups [NodeTree.mk "Wood_3" [color_mix_node] [] [] []]
    (editing "MESH" [principled_bsdf_node; layer_group_node "3"] [] (-1)).

(** A string without the character [c]. *)
Fixpoint no_char (c : ascii) (s : string) : Prop :=
  match s with
  | EmptyString => True
  | String d s' => d ≠ c ∧ no_char c s'
  end.

(** The number that a string of decimal digits stands for, read on from
    [acc]. *)
Definition digit_value (c : ascii) : Z := Z.of_nat (nat_of_ascii c) - 48.

Fixpoint number_of (acc : Z) (s : string) : Z :=
  match s with
  | EmptyString => acc
  | String c s' => number_of (acc * 10 + digit_value c) s'
  end.

(** * Properties *)

(** ** Node names *)

Lemma append_String (c : ascii) (a b : string) :
  String c a +:+ b = String c (a +:+ b).
Proof. reflexivity. Qed.

Lemma append_EmptyString (b : string) : "" +:+ b = b.
Proof. reflexivity. Qed.

Lemma no_underscore_app_sep (a b : string) :
  ¬ no_underscore (a +:+ "_" +:+ b).
Proof.
  induction a as [|c a IH].
  - rewrite append_EmptyString, append_String. intros [Hc _]. by apply Hc.
  - rewrite append_String. intros [_ H]. by apply IH.
Qed.

Lemma split_at_last_separator (m1 m2 d1 d2 : string) :
  no_underscore d1 → no_underscore d2 →
  m1 +:+ "_" +:+ d1 = m2 +:+ "_" +:+ d2 → m1 = m2 ∧ d1 = d2.
Proof.
  intros Hd1 Hd2. revert m2.
  induction m1 as [|c1 m1 IH]; intros [|c2 m2];
    repeat (rewrite append_EmptyString || rewrite append_String);
    intros Heq.
  - by simplify_eq.
  - exfalso. injection Heq as _ Heq. subst d1.
    by apply (no_underscore_app_sep m2 d2).
  - exfalso. injection Heq as _ Heq. subst d2.
    by apply (no_underscore_app_sep m1 d1).
  - injection Heq as -> Heq. destruct (IH _ Heq) as [-> ->]. done.
Qed.

Lemma pretty_N_char_no_underscore (x : N) : pretty_N_char x ≠ "_"%char.
Proof. unfold pretty_N_char. by repeat case_match. Qed.

Lemma pretty_N_go_no_underscore (x : N) (s : string) :
  no_underscore s → no_underscore (pretty_N_go x s).
Proof.
  revert s. induction (N.lt_wf_0 x) as [x _ IH]; intros s Hs.
  destruct (decide (x = 0)%N) as [->|Hx].
  - by rewrite pretty_N_go_0.
  - rewrite pretty_N_go_step by lia. apply IH.
    + apply N.div_lt; lia.
    + split; [apply pretty_N_char_no_underscore | done].
Qed.

Lemma pretty_N_no_underscore (x : N) : no_underscore (pretty x).
Proof.
  unfold pretty, pretty_N. case_decide.
  - by split.
  - by apply pretty_N_go_no_underscore.
Qed.

Lemma str_no_underscore (i : Z) : no_underscore (str i).
Proof.
  unfold str, pretty, pretty_Z. destruct i as [|p|p].
  - by split.
  - apply pretty_N_no_underscore.
  - split; [done | apply pretty_N_no_underscore].
Qed.

Lemma format_layer_group_node_name_inj (m1 m2 : string) (i1 i2 : Z) :
  format_layer_group_node_name m1 i1 = format_layer_group_node_name m2 i2 →
  m1 = m2 ∧ i1 = i2.
Proof.
  unfold format_layer_group_node_name. intros Heq.
  apply split_at_last_separator in Heq as [-> Hstr];
    [| apply str_no_underscore ..].
  split; [done | by apply (inj pretty)].
Qed.

(** C9. [format_layer_group_node_name] is a function of its two arguments
    alone: for every material name and every index, negative ones too, its
    value is the material name, an underscore and the decimal index, so
    ["Wood"] and [3] give ["Wood_3"]; and two distinct (material name,
    index) pairs with indices at least 0 give distinct names. *)
Theorem format_layer_group_node_name_spec :
  format_layer_group_node_name "Wood" 3 = "Wood_3" ∧
  (∀ (m : string) (i : Z),
     format_layer_group_node_name m i = m +:+ "_" +:+ str i) ∧
  (∀ (m1 m2 : string) (i1 i2 : Z),
     0 ≤ i1 → 0 ≤ i2 → (m1, i1) ≠ (m2, i2) →
     format_layer_group_node_name m1 i1 ≠ format_layer_group_node_name m2 i2).
Proof.
  split; [reflexivity |]. split; [reflexivity |].
  intros m1 m2 i1 i2 _ _ Hne Heq. apply Hne.
  by destruct (format_layer_group_node_name_inj _ _ _ _ Heq) as [-> ->].
Qed.

Lemma format_layer_group_node_name_spec_witness :
  format_layer_group_node_name "Wood" (-3) = "Wood_-3" ∧
  format_layer_group_node_name "Wood_3" 3 ≠
  format_layer_group_node_name "Wood" 3.
Proof.
  destruct format_layer_group_node_name_spec as (_ & Hformat & Hinj).
  split.
  - rewrite (Hformat "Wood" (-3)). vm_compute. reflexivity.
  - apply (Hinj "Wood_3" "Wood" 3 3); [lia | lia | discriminate].
Defined.

(** ** The slot store *)

Lemma collection_find_ge (layers : list MATLAYER_layers.t) (key : string) :
  -1 ≤ collection_find layers key.
Proof.
  induction layers as [|l rest IH]; simpl; [lia |].
  repeat case_bool_decide; lia.
Qed.

Lemma collection_find_miss (layers : list MATLAYER_layers.t) (key : string) :
  collection_find layers key = -1 ↔ key ∉ slot_ids layers.
Proof.
  induction layers as [|l rest IH]; simpl.
  - split; [intros _; apply not_elem_of_nil | done].
  - pose proof (collection_find_ge rest key).
    rewrite not_elem_of_cons. case_bool_decide as Hname.
    + split; [lia | intros [Hne _]; congruence].
    + case_bool_decide as Hrest.
      * split; [intros _; split; [congruence | by apply IH] | done].
      * split; [lia | intros [_ Hnot]; apply IH in Hnot; contradiction].
Qed.

Lemma update_last_snoc {A : Type} (f : A → A) (l : list A) (x : A) :
  update_last f (l ++ [x]) = l ++ [f x].
Proof.
  induction l as [|y l IH]; [done |].
  simpl. rewrite IH. by destruct l.
Qed.

Lemma collection_move_Permutation (from to : Z) (layers : list MATLAYER_layers.t) :
  collection_move from to layers ≡ₚ layers.
Proof.
  unfold collection_move. case_bool_decide; [| done].
  destruct (layers !! Z.to_nat from) as [item|] eqn:Hitem; [| done].
  rewrite <- Permutation_middle, take_drop.
  symmetry. by apply delete_Permutation.
Qed.

Lemma collection_move_length (from to : Z) (layers : list MATLAYER_layers.t) :
  length (collection_move from to layers) = length layers.
Proof. apply Permutation_length, collection_move_Permutation. Qed.

Lemma add_material_layer_slot_run (h : bpy) :
  add_material_layer_slot h =
  match draw_unique_slot_id (collection_add (scene_matlayer_layers h))
          (random_draws h) with
  | None => Diverges
  | Some (id, draws') =>
      let selected := MATLAYER_layer_stack.selected_layer_index
                        (scene_matlayer_layer_stack h) in
      let layers := slot_added id (scene_matlayer_layers h) in
      let to := move_target selected (len layers) in
      Returns selected
        (mk_bpy (context_active_object h)
           (collection_move (len layers - 1) to layers)
           (MATLAYER_layer_stack.set_layer_index to (scene_matlayer_layer_stack h))
           (data_node_groups h) draws' (reports h))
  end.
Proof.
  destruct h as [ao layers stack groups draws reps].
  unfold add_material_layer_slot, unique_random_slot_id, mbind, py_bind, get,
    modify_layers, modify_layer_stack, modify, of_loop, mret, py_ret; simpl.
  destruct (draw_unique_slot_id _ _) as [[id draws']|]; simpl; [| done].
  unfold move_target, slot_added. case_bool_decide; reflexivity.
Qed.

Lemma slot_ids_slot_added (id : string) (layers : list MATLAYER_layers.t) :
  slot_ids (slot_added id layers) = slot_ids layers ++ [id].
Proof.
  unfold slot_added, collection_add, slot_ids.
  by rewrite update_last_snoc, fmap_app.
Qed.

Lemma draw_unique_slot_id_Some (layers : list MATLAYER_layers.t)
  (draws : list Z) (id : string) (draws' : list Z) :
  draw_unique_slot_id layers draws = Some (id, draws') →
  (id ∉ slot_ids layers) ∧
  ∃ skipped raw, draws = skipped ++ raw :: draws' ∧
                 id = str (randrange 0 999999 raw).
Proof.
  induction draws as [|raw draws IH]; simpl; [done |].
  case_bool_decide as Hfind.
  - intros Hrec. destruct (IH Hrec) as (Hfresh & skipped & raw' & -> & ->).
    split; [done |]. by exists (raw :: skipped), raw'.
  - intros [= <- <-]. split.
    + apply collection_find_miss. lia.
    + by exists [], raw.
Qed.

Lemma draw_unique_slot_id_accepts (layers : list MATLAYER_layers.t)
  (raw : Z) (draws : list Z) :
  str (randrange 0 999999 raw) ∉ slot_ids layers →
  draw_unique_slot_id layers (raw :: draws)
  = Some (str (randrange 0 999999 raw), draws).
Proof.
  intros Hfresh. apply collection_find_miss in Hfresh.
  cbn [draw_unique_slot_id]. cbv zeta.
  rewrite bool_decide_eq_false_2; [done | lia].
Qed.

Lemma pretty_N_go_nonempty (x : N) (s : string) :
  s ≠ "" → pretty_N_go x s ≠ "".
Proof.
  revert s. induction (N.lt_wf_0 x) as [x _ IH]; intros s Hs.
  destruct (decide (x = 0)%N) as [->|Hx].
  - by rewrite pretty_N_go_0.
  - rewrite pretty_N_go_step by lia. apply IH; [apply N.div_lt; lia | done].
Qed.

Lemma str_nonempty (i : Z) : str i ≠ "".
Proof.
  unfold str, pretty, pretty_Z. destruct i as [|p|p]; [done | |done].
  unfold pretty, pretty_positive, pretty, pretty_N. case_decide; [done |].
  rewrite pretty_N_go_step by lia. by apply pretty_N_go_nonempty.
Qed.

Lemma add_material_layer_slot_Returns (h h' : bpy) (idx : Z) :
  add_material_layer_slot h = Returns idx h' →
  ∃ id skipped raw,
    random_draws h = skipped ++ raw :: random_draws h' ∧
    id = str (randrange 0 999999 raw) ∧
    (id ∉ slot_ids (scene_matlayer_layers h)) ∧
    slot_ids (scene_matlayer_layers h') ≡ₚ slot_ids (scene_matlayer_layers h) ++ [id] ∧
    idx = selected h ∧ selected h' = selected h.
Proof.
  rewrite add_material_layer_slot_run.
  destruct (draw_unique_slot_id _ _) as [[id draws']|] eqn:Hdraw; [| done].
  intros [= <- <-]. apply draw_unique_slot_id_Some in Hdraw
    as (Hfresh & skipped & raw & Hdraws & Hid).
  exists id, skipped, raw. simpl. repeat split; try done.
  - intros Hin. apply Hfresh. unfold collection_add, slot_ids.
    rewrite fmap_app. apply elem_of_app. by left.
  - unfold slot_ids at 1. rewrite collection_move_Permutation.
    by rewrite <- slot_ids_slot_added.
Qed.

Lemma add_material_layer_slot_not_Raises (h h' : bpy) (e : exn) :
  add_material_layer_slot h ≠ Raises e h'.
Proof.
  rewrite add_material_layer_slot_run.
  by destruct (draw_unique_slot_id _ _) as [[id draws']|].
Qed.

Lemma add_material_layer_slot_unique (h h' : bpy) (idx : Z) :
  NoDup (slot_ids (scene_matlayer_layers h)) →
  add_material_layer_slot h = Returns idx h' →
  NoDup (slot_ids (scene_matlayer_layers h')) ∧
  length (scene_matlayer_layers h') = S (length (scene_matlayer_layers h)).
Proof.
  intros Hnodup Hadd.
  apply add_material_layer_slot_Returns in Hadd
    as (id & _ & _ & _ & _ & Hfresh & Hperm & _).
  split.
  - rewrite Hperm. apply NoDup_app. split; [done |].
    split; [| apply NoDup_singleton].
    intros x Hx Hid. apply list_elem_of_singleton in Hid as ->. done.
  - apply Permutation_length in Hperm. unfold slot_ids in Hperm.
    rewrite length_app, !length_fmap in Hperm. simpl in Hperm. lia.
Qed.

Lemma add_material_layer_slot_accepts (h : bpy) (raw : Z) (draws : list Z) :
  random_draws h = raw :: draws →
  str (randrange 0 999999 raw) ∉ slot_ids (scene_matlayer_layers h) →
  ∃ h', add_material_layer_slot h = Returns (selected h) h' ∧
        random_draws h' = draws.
Proof.
  intros Hdraws Hfresh. rewrite add_material_layer_slot_run, Hdraws.
  rewrite draw_unique_slot_id_accepts; [by eexists |].
  unfold collection_add, slot_ids. rewrite fmap_app, elem_of_app.
  intros [Hin | Hblank]; [done |].
  apply list_elem_of_singleton in Hblank. by apply str_nonempty in Hblank.
Qed.

Lemma add_material_layer_slots_unique (n : nat) (h h' : bpy) :
  NoDup (slot_ids (scene_matlayer_layers h)) →
  add_material_layer_slots n h = Returns tt h' →
  NoDup (slot_ids (scene_matlayer_layers h')) ∧
  length (scene_matlayer_layers h') = (length (scene_matlayer_layers h) + n)%nat.
Proof.
  revert h. induction n as [|n IH]; intros h Hnodup; simpl.
  - intros [= <-]. split; [done | lia].
  - unfold mbind, py_bind.
    destruct (add_material_layer_slot h) as [idx h1| |] eqn:Hadd; [| done..].
    intros Hrest.
    destruct (add_material_layer_slot_unique _ _ _ Hnodup Hadd) as [Hnodup1 Hlen1].
    destruct (IH _ Hnodup1 Hrest) as [Hnodup' Hlen'].
    split; [done | lia].
Qed.

Lemma add_material_layer_slots_returns (n : nat) (h : bpy) :
  (n ≤ length (random_draws h))%nat →
  NoDup (slot_ids (scene_matlayer_layers h) ++ drawn_ids (random_draws h)) →
  ∃ h', add_material_layer_slots n h = Returns tt h'.
Proof.
  revert h. induction n as [|n IH]; intros h Hlen Hnodup; simpl.
  - by eexists.
  - destruct (random_draws h) as [|raw draws] eqn:Hdraws; simpl in Hlen; [lia |].
    simpl in Hnodup.
    destruct (add_material_layer_slot_accepts h raw draws Hdraws) as (h1 & Hadd & Hdraws1).
    { apply NoDup_app in Hnodup as (_ & Hdisj & _). intros Hin.
      apply (Hdisj _ Hin). by left. }
    unfold mbind, py_bind. rewrite Hadd. apply IH.
    + rewrite Hdraws1. lia.
    + apply add_material_layer_slot_Returns in Hadd
        as (id & skipped & raw' & Hsplit & Hid & _ & Hperm & _).
      rewrite Hdraws1 in *. rewrite Hdraws in Hsplit.
      assert (skipped = [] ∧ raw' = raw) as [-> ->].
      { apply (f_equal length) in Hsplit as Hl. rewrite length_app in Hl.
        simpl in Hl. destruct skipped; [| simpl in Hl; lia].
        by injection Hsplit as ->. }
      rewrite Hperm, Hid, <- app_assoc. done.
Qed.

Lemma draw_unique_slot_id_skips (layers : list MATLAYER_layers.t)
  (draws : list Z) (id : string) (draws' : list Z) :
  draw_unique_slot_id layers draws = Some (id, draws') →
  ∃ skipped raw, draws = skipped ++ raw :: draws' ∧
    Forall (λ r, str (randrange 0 999999 r) ∈ slot_ids layers) skipped.
Proof.
  induction draws as [|raw draws IH]; simpl; [done |].
  case_bool_decide as Hfind.
  - intros Hrec. destruct (IH Hrec) as (skipped & raw' & -> & Hall).
    exists (raw :: skipped), raw'. split; [done |]. constructor; [| done].
    destruct (decide (str (randrange 0 999999 raw) ∈ slot_ids layers))
      as [|Hnot]; [done |].
    by apply collection_find_miss in Hnot.
  - intros [= <- <-]. by exists [], raw.
Qed.

Lemma draw_unique_slot_id_finds (layers : list MATLAYER_layers.t)
  (draws : list Z) (raw : Z) :
  raw ∈ draws → str (randrange 0 999999 raw) ∉ slot_ids layers →
  is_Some (draw_unique_slot_id layers draws).
Proof.
  intros Hin Hfresh. induction draws as [|r draws IH]; [by inversion Hin |].
  simpl. case_bool_decide as Hfind; [| by eexists].
  apply IH. apply elem_of_cons in Hin as [-> | Hin]; [| done].
  by apply collection_find_miss in Hfresh.
Qed.

Lemma add_material_layer_slot_finds (h : bpy) (raw : Z) :
  raw ∈ random_draws h →
  str (randrange 0 999999 raw) ∉ slot_ids (scene_matlayer_layers h) →
  ∃ h', add_material_layer_slot h = Returns (selected h) h'.
Proof.
  intros Hin Hfresh. rewrite add_material_layer_slot_run.
  destruct (draw_unique_slot_id_finds
              (collection_add (scene_matlayer_layers h)) _ raw Hin)
    as [[id draws'] ->]; [| by eexists].
  unfold collection_add, slot_ids. rewrite fmap_app, elem_of_app.
  intros [Hold | Hblank]; [done |].
  apply list_elem_of_singleton in Hblank. by apply str_nonempty in Hblank.
Qed.

Lemma slot_ids_collection_add (layers : list MATLAYER_layers.t) (id : string) :
  id ∈ slot_ids (collection_add layers) ↔ id ∈ slot_ids layers ∨ id = "".
Proof.
  unfold collection_add, slot_ids. rewrite fmap_app, elem_of_app. simpl.
  by rewrite list_elem_of_singleton.
Qed.

Lemma add_material_layer_slot_first_free (h h' : bpy) (idx : Z) :
  add_material_layer_slot h = Returns idx h' →
  ∃ id skipped raw,
    random_draws h = skipped ++ raw :: random_draws h' ∧
    Forall (λ r, str (randrange 0 999999 r)
                   ∈ slot_ids (scene_matlayer_layers h)) skipped ∧
    id = str (randrange 0 999999 raw) ∧
    (id ∉ slot_ids (scene_matlayer_layers h)) ∧
    slot_ids (scene_matlayer_layers h')
      ≡ₚ slot_ids (scene_matlayer_layers h) ++ [id].
Proof.
  intros Hadd.
  pose proof Hadd as Hrun. rewrite add_material_layer_slot_run in Hrun.
  destruct (draw_unique_slot_id _ _) as [[id0 draws']|] eqn:Hdraw; [| done].
  injection Hrun as _ Hh'.
  apply draw_unique_slot_id_skips in Hdraw as (skipped & raw & Hsplit & Hall).
  apply add_material_layer_slot_Returns in Hadd
    as (id & skipped' & raw' & Hsplit' & Hid & Hfresh & Hperm & _).
  assert (random_draws h' = draws') as Hd by (by rewrite <- Hh').
  rewrite Hd in *. rewrite Hsplit in Hsplit'.
  assert (length skipped = length skipped') as Hlen.
  { apply (f_equal length) in Hsplit'. rewrite !length_app in Hsplit'.
    simpl in Hsplit'. lia. }
  apply app_inj_1 in Hsplit' as [<- [= <-]]; [| done].
  exists id, skipped, raw. repeat split; try done.
  eapply Forall_impl; [exact Hall |]. intros r. simpl.
  rewrite slot_ids_collection_add.
  intros [Hold | Hblank]; [done |]. by apply str_nonempty in Hblank.
Qed.

Lemma draw_unique_slot_id_first_free (layers : list MATLAYER_layers.t)
  (skipped : list Z) (raw : Z) (rest : list Z) :
  Forall (λ r, str (randrange 0 999999 r) ∈ slot_ids layers) skipped →
  str (randrange 0 999999 raw) ∉ slot_ids layers →
  draw_unique_slot_id layers (skipped ++ raw :: rest)
  = Some (str (randrange 0 999999 raw), rest).
Proof.
  intros Hall Hfresh. induction Hall as [|r skipped Hr Hall IH].
  - by apply draw_unique_slot_id_accepts.
  - rewrite <- app_comm_cons. cbn [draw_unique_slot_id]. cbv zeta.
    rewrite bool_decide_eq_true_2; [exact IH |].
    intros Hmiss. by apply collection_find_miss in Hmiss.
Qed.

Lemma add_material_layer_slot_takes_first_free (h : bpy) (skipped : list Z)
  (raw : Z) (rest : list Z) :
  random_draws h = skipped ++ raw :: rest →
  Forall (λ r, str (randrange 0 999999 r)
                 ∈ slot_ids (scene_matlayer_layers h)) skipped →
  str (randrange 0 999999 raw) ∉ slot_ids (scene_matlayer_layers h) →
  ∃ h', add_material_layer_slot h = Returns (selected h) h' ∧
        random_draws h' = rest ∧
        slot_ids (scene_matlayer_layers h')
          ≡ₚ slot_ids (scene_matlayer_layers h)
               ++ [str (randrange 0 999999 raw)].
Proof.
  intros Hdraws Hall Hfresh.
  assert (draw_unique_slot_id (collection_add (scene_matlayer_layers h))
            (random_draws h)
          = Some (str (randrange 0 999999 raw), rest)) as Hdraw.
  { rewrite Hdraws. apply draw_unique_slot_id_first_free.
    - eapply Forall_impl; [exact Hall |]. intros r Hr.
      apply slot_ids_collection_add. by left.
    - rewrite slot_ids_collection_add. intros [Hold | Hblank]; [done |].
      by apply str_nonempty in Hblank. }
  pose proof (add_material_layer_slot_run h) as Hrun. rewrite Hdraw in Hrun.
  cbv zeta in Hrun. eexists. split; [exact Hrun |]. split; [done |].
  apply add_material_layer_slot_first_free in Hrun
    as (id & skipped' & raw' & Hsplit & Hall' & -> & Hfresh' & Hperm).
  cbn [random_draws] in Hsplit. rewrite Hdraws in Hsplit.
  assert (raw' = raw) as ->; [| exact Hperm].
  apply (f_equal length) in Hsplit as Hlen. rewrite !length_app in Hlen.
  simpl in Hlen. apply app_inj_1 in Hsplit as [_ [= ->]]; [done | lia].
Qed.

Lemma filter_all {A : Type} (P : A → Prop) `{∀ x, Decision (P x)}
  (l : list A) :
  (∀ x, x ∈ l → P x) → filter P l = l.
Proof.
  induction l as [|x l IH]; intros Hall; [done |].
  rewrite filter_cons_True by (apply Hall; by left).
  rewrite IH; [done |]. intros y Hy. apply Hall. by right.
Qed.

Lemma filter_ne_length (l : list string) (id : string) :
  NoDup l → (length l ≤ S (length (filter (λ x, x ≠ id) l)))%nat.
Proof.
  induction 1 as [|x l Hx Hnodup IH]; [simpl; lia |].
  destruct (decide (x = id)) as [-> | Hne].
  - rewrite filter_cons_False by (by intros Hid).
    rewrite filter_all; [done |]. intros y Hy ->. done.
  - rewrite filter_cons_True by done. simpl. lia.
Qed.

Lemma add_material_layer_slots_returns_free (n : nat) (h : bpy)
  (free : list string) :
  NoDup free → (n ≤ length free)%nat →
  (∀ id, id ∈ free →
     id ∈ drawn_ids (random_draws h) ∧
     id ∉ slot_ids (scene_matlayer_layers h)) →
  ∃ h', add_material_layer_slots n h = Returns tt h'.
Proof.
  revert h free. induction n as [|n IH]; intros h free Hnodup Hlen Hfree.
  - by eexists.
  - assert (∃ id0, id0 ∈ free) as [id0 Hid0].
    { destruct free as [|id0 free0]; [simpl in Hlen; lia |].
      exists id0. by left. }
    destruct (Hfree id0 Hid0) as [Hdrawn Hnew].
    apply list_elem_of_fmap in Hdrawn as (raw0 & -> & Hraw0).
    destruct (add_material_layer_slot_finds h raw0 Hraw0 Hnew) as [h1 Hadd].
    simpl. unfold mbind, py_bind. rewrite Hadd.
    apply add_material_layer_slot_first_free in Hadd
      as (id & skipped & raw & Hsplit & Hall & Hid & Hfresh & Hperm).
    apply (IH h1 (filter (λ x, x ≠ id) free)).
    + by apply NoDup_filter.
    + pose proof (filter_ne_length free id Hnodup) as Hshort. lia.
    + intros x Hx. apply list_elem_of_filter in Hx as [Hne Hx].
      destruct (Hfree x Hx) as [Hdrawn Hnot]. split.
      * rewrite Hsplit in Hdrawn. unfold drawn_ids in Hdrawn.
        rewrite fmap_app, fmap_cons in Hdrawn.
        apply elem_of_app in Hdrawn as [Hskipped | Hrest].
        { apply list_elem_of_fmap in Hskipped as (r & -> & Hr).
          rewrite Forall_forall in Hall. destruct Hnot. by apply Hall. }
        apply elem_of_cons in Hrest as [-> | Hrest]; [| done].
        by rewrite <- Hid in Hne.
      * rewrite Hperm. rewrite elem_of_app, list_elem_of_singleton.
        intros [Hold | ->]; done.
Qed.

Lemma add_material_layer_slots_length (n : nat) (h h' : bpy) :
  add_material_layer_slots n h = Returns tt h' →
  length (scene_matlayer_layers h') = (length (scene_matlayer_layers h) + n)%nat.
Proof.
  revert h. induction n as [|n IH]; intros h; simpl.
  - intros [= <-]. lia.
  - unfold mbind, py_bind.
    destruct (add_material_layer_slot h) as [idx h1| |] eqn:Hadd; [| done..].
    intros Hrest. apply IH in Hrest.
    apply add_material_layer_slot_first_free in Hadd
      as (id & _ & _ & _ & _ & _ & _ & Hperm).
    apply Permutation_length in Hperm. unfold slot_ids in Hperm.
    rewrite length_app, !length_fmap in Hperm. simpl in Hperm. lia.
Qed.

(** C7. [add_material_layer_slot] draws ids again and again until one is
    the id of no slot of the store.  It returns as soon as a draw is the id
    of no slot, after however many draws that were: a free id anywhere among
    the draws to come makes the call return.  When it returns, the draws it
    passed over were all ids of slots, and the id it gave to the new slot is
    none.  So [n] insertions that return have added [n] slots, and in a
    store whose ids are pairwise distinct they still are after them, for
    every [n], 10,000 included; and the [n] insertions do return, whatever
    draws collide on the way, when [n] distinct ids that are not in the
    store are among the draws to come. *)
Theorem add_material_layer_slot_unique_ids (n : nat) (h : bpy) :
  (∀ raw, raw ∈ random_draws h →
     str (randrange 0 999999 raw) ∉ slot_ids (scene_matlayer_layers h) →
     ∃ h', add_material_layer_slot h = Returns (selected h) h') ∧
  (∀ idx h', add_material_layer_slot h = Returns idx h' →
     ∃ id skipped raw,
       random_draws h = skipped ++ raw :: random_draws h' ∧
       Forall (λ r, str (randrange 0 999999 r)
                      ∈ slot_ids (scene_matlayer_layers h)) skipped ∧
       id = str (randrange 0 999999 raw) ∧
       (id ∉ slot_ids (scene_matlayer_layers h)) ∧
       slot_ids (scene_matlayer_layers h')
         ≡ₚ slot_ids (scene_matlayer_layers h) ++ [id]) ∧
  (∀ h', add_material_layer_slots n h = Returns tt h' →
     length (scene_matlayer_layers h')
       = (length (scene_matlayer_layers h) + n)%nat ∧
     (NoDup (slot_ids (scene_matlayer_layers h)) →
      NoDup (slot_ids (scene_matlayer_layers h')))) ∧
  (∀ free : list string,
     NoDup free → (n ≤ length free)%nat →
     (∀ id, id ∈ free →
        id ∈ drawn_ids (random_draws h) ∧
        id ∉ slot_ids (scene_matlayer_layers h)) →
     ∃ h', add_material_layer_slots n h = Returns tt h').
Proof.
  split; [| split; [| split]].
  - intros raw. apply add_material_layer_slot_finds.
  - intros idx h'. apply add_material_layer_slot_first_free.
  - intros h' Hrun. split; [by apply add_material_layer_slots_length |].
    intros Hnodup.
    by destruct (add_material_layer_slots_unique n h h' Hnodup Hrun).
  - intros free. apply add_material_layer_slots_returns_free.
Qed.

(** Three insertions into the store of the ids 4 and 8, on draws where 4, 8
    and later 15 come up again: every colliding draw is passed over, and the
    three new slots get 15, 16 and 23. *)
Lemma add_material_layer_slot_unique_ids_witness :
  (∃ h1, add_material_layer_slot
           (scene_only [slot "4"; slot "8"] 0 [4; 8; 15; 4; 16; 15; 23])
         = Returns 0 h1) ∧
  ∃ h', add_material_layer_slots 3
          (scene_only [slot "4"; slot "8"] 0 [4; 8; 15; 4; 16; 15; 23])
        = Returns tt h' ∧
        NoDup (slot_ids (scene_matlayer_layers h')) ∧
        length (scene_matlayer_layers h') = 5%nat.
Proof.
  destruct (add_material_layer_slot_unique_ids 3
              (scene_only [slot "4"; slot "8"] 0 [4; 8; 15; 4; 16; 15; 23]))
    as (Hretry & _ & Huniq & Hreturns).
  split.
  - apply (Hretry 15).
    + apply (bool_decide_unpack _). vm_compute. exact I.
    + apply (bool_decide_unpack _). vm_compute. exact I.
  - destruct (Hreturns ["15"; "16"; "23"]) as [h' Hrun].
    + apply (bool_decide_unpack _). vm_compute. exact I.
    + simpl. lia.
    + intros id Hid. apply (bool_decide_unpack _).
      repeat (apply elem_of_cons in Hid as [-> | Hid];
              [vm_compute; exact I |]).
      by apply elem_of_nil in Hid.
    + exists h'. split; [exact Hrun |].
      destruct (Huniq h' Hrun) as [Hlen Hnodup]. split; [| exact Hlen].
      apply Hnodup. apply (bool_decide_unpack _). vm_compute. exact I.
Defined.

(** Ten thousand insertions into an empty store, with draws that happen to
    count up from 0: they all return, and the ids are pairwise distinct. *)
Lemma ten_thousand_insertions :
  ∃ h', add_material_layer_slots (Z.to_nat 10000)
          (scene_only [] (-1) (seqZ 0 10000)) = Returns tt h' ∧
        NoDup (slot_ids (scene_matlayer_layers h')) ∧
        length (scene_matlayer_layers h') = Z.to_nat 10000.
Proof.
  destruct (add_material_layer_slots_returns (Z.to_nat 10000)
              (scene_only [] (-1) (seqZ 0 10000))) as [h' Hh'].
  - unfold scene_only, random_draws. rewrite length_seqZ. lia.
  - unfold scene_only, random_draws, scene_matlayer_layers, slot_ids, drawn_ids.
    rewrite fmap_nil, app_nil_l. apply NoDup_fmap_2_strong; [| apply NoDup_seqZ].
    intros x y Hx Hy Heq. apply (inj pretty) in Heq.
    apply elem_of_seqZ in Hx, Hy. unfold randrange in Heq.
    rewrite !Z.mod_small in Heq by lia. lia.
  - exists h'. split; [done |].
    apply add_material_layer_slots_unique in Hh' as [Hnodup Hlen];
      [| apply NoDup_nil_2].
    split; [done |]. by rewrite Hlen.
Qed.

(** ** Adding and deleting a slot: the selection *)

Lemma collection_move_last_to_front (layers : list MATLAYER_layers.t)
  (x : MATLAYER_layers.t) :
  collection_move (len (layers ++ [x]) - 1) 0 (layers ++ [x]) = x :: layers.
Proof.
  unfold collection_move, len. rewrite length_app. simpl.
  case_bool_decide as Hguard.
  - replace (Z.to_nat (Z.of_nat (length layers + 1) - 1)) with (length layers)
      by lia.
    rewrite list_lookup_middle by done. rewrite delete_middle.
    simpl. by rewrite ?drop_0, app_nil_r.
  - destruct layers as [|y layers]; [done |]. simpl in Hguard. lia.
Qed.

(** Without a selection the new slot does go to the front of the store, but
    the position is written to [layer_index]: the selection stays what it
    was, and the old selection is what the function returns. *)
Lemma add_material_layer_slot_no_selection (h h' : bpy) (idx : Z) :
  selected h < 0 →
  add_material_layer_slot h = Returns idx h' →
  idx = selected h ∧ selected h' = selected h ∧
  MATLAYER_layer_stack.layer_index (scene_matlayer_layer_stack h') = Some 0 ∧
  ∃ id, scene_matlayer_layers h' = slot id :: scene_matlayer_layers h.
Proof.
  intros Hsel. rewrite add_material_layer_slot_run.
  destruct (draw_unique_slot_id _ _) as [[id draws']|]; [| done].
  intros [= <- <-]. unfold selected in *. simpl.
  unfold move_target. rewrite bool_decide_eq_true_2 by done.
  repeat split; try done. exists id.
  unfold slot_added, collection_add. rewrite update_last_snoc.
  apply collection_move_last_to_front.
Qed.

(** C2, at an empty store without a selection: the new slot is at position
    0, but the function returns -1 and the selected index is still -1 (the 0
    went to [layer_index]). *)
Theorem add_material_layer_slot_returns_old_selection :
  ∃ h', add_material_layer_slot (scene_only [] (-1) [5]) = Returns (-1) h' ∧
        scene_matlayer_layers h' = [slot "5"] ∧
        selected h' = -1 ∧
        MATLAYER_layer_stack.layer_index (scene_matlayer_layer_stack h') = Some 0.
Proof. eexists. repeat split; vm_compute; reflexivity. Qed.

Lemma MATLAYER_OT_delete_layer_execute_run (h : bpy) :
  MATLAYER_OT_delete_layer_execute h =
  let layers := collection_remove (selected h) (scene_matlayer_layers h) in
  Returns FINISHED
    (mk_bpy (context_active_object h) layers
       (MATLAYER_layer_stack.set_layer_index
          (Z.max (Z.min (selected h - 1) (len layers - 1)) 0)
          (scene_matlayer_layer_stack h))
       (data_node_groups h) (random_draws h) (reports h)).
Proof. by destruct h. Qed.

(** Deleting never changes the selected index: the clamped value goes to
    [layer_index]. *)
Lemma MATLAYER_OT_delete_layer_keeps_selection (h h' : bpy) :
  MATLAYER_OT_delete_layer_execute h = Returns FINISHED h' →
  selected h' = selected h ∧
  MATLAYER_layer_stack.layer_index (scene_matlayer_layer_stack h')
  = Some (Z.max (Z.min (selected h - 1) (len (scene_matlayer_layers h') - 1)) 0).
Proof.
  rewrite MATLAYER_OT_delete_layer_execute_run. by intros [= <-].
Qed.

(** C3, at the store [A, B, C] with the last slot selected: the slot goes,
    two slots are left, and the selected index is still 2, which is no index
    of the store; the clamped value 1 is in [layer_index]. *)
Theorem MATLAYER_OT_delete_layer_selection_out_of_range :
  ∃ h', MATLAYER_OT_delete_layer_execute
          (scene_only [slot "A"; slot "B"; slot "C"] 2 []) = Returns FINISHED h' ∧
        scene_matlayer_layers h' = [slot "A"; slot "B"] ∧
        selected h' = 2 ∧
        ¬ (0 ≤ selected h' ≤ len (scene_matlayer_layers h') - 1) ∧
        MATLAYER_layer_stack.layer_index (scene_matlayer_layer_stack h') = Some 1.
Proof.
  eexists. split; [vm_compute; reflexivity |]. repeat split; try reflexivity.
  vm_compute. intros [_ Hle]. by apply Hle.
Qed.

(** ** Moving a slot *)

(** C8. The move command returns without touching anything, whatever the
    direction: at the store [A, B] with the second slot selected, moving up
    leaves [A, B] and the selection 1 where the swap gives [B, A] and 0. *)
Theorem MATLAYER_OT_move_material_layer_does_nothing :
  (∀ (direction : string) (h : bpy),
     MATLAYER_OT_move_material_layer_execute direction h = Returns FINISHED h) ∧
  ∃ h', MATLAYER_OT_move_material_layer_execute "UP"
          (scene_only [slot "A"; slot "B"] 1 []) = Returns FINISHED h' ∧
        scene_matlayer_layers h' = [slot "A"; slot "B"] ∧
        scene_matlayer_layers h' ≠ [slot "B"; slot "A"] ∧
        selected h' = 1.
Proof.
  split; [done |]. eexists. split; [vm_compute; reflexivity |].
  by repeat split.
Qed.

(** ** Counting the layers in the node tree *)

Lemma nodes_get_is_Some (nodes : list Node.t) (key : string) :
  is_Some (nodes_get nodes key) ↔ key ∈ Node.name <$> nodes.
Proof.
  unfold nodes_get. induction nodes as [|n nodes IH]; simpl.
  - split; [by intros [? ?] | by intros ?%elem_of_nil].
  - rewrite elem_of_cons. case_bool_decide as Hname.
    + split; [by left | by eexists].
    + rewrite IH. split; [by right | intros [-> | ?]; done].
Qed.

Lemma nodes_get_filter_ne (nodes : list Node.t) (k key : string) :
  k ≠ key →
  nodes_get (filter (λ n, Node.name n ≠ k) nodes) key = nodes_get nodes key.
Proof.
  intros Hne. unfold nodes_get. induction nodes as [|n nodes IH]; [done |].
  rewrite filter_cons. case_decide as Hk; simpl.
  - by rewrite IH.
  - rewrite IH. rewrite bool_decide_eq_false_2; [done | congruence].
Qed.

Lemma nodes_get_filter_length (nodes : list Node.t) (k : string) :
  is_Some (nodes_get nodes k) →
  (length (filter (λ n, Node.name n ≠ k) nodes) < length nodes)%nat.
Proof.
  unfold nodes_get. induction nodes as [|n nodes IH]; simpl.
  - by intros [? ?].
  - rewrite filter_cons. case_bool_decide as Hname.
    + intros _. rewrite decide_False by (by intros Hne; apply Hne).
      pose proof (length_filter (λ n, Node.name n ≠ k) nodes). lia.
    + intros Hsome. rewrite decide_True by done. simpl.
      apply IH in Hsome. lia.
Qed.

Lemma count_layer_nodes_filter (fuel : nat) (nodes : list Node.t)
  (k : string) (c : Z) :
  (∀ c', c ≤ c' → str c' ≠ k) →
  count_layer_nodes fuel (filter (λ n, Node.name n ≠ k) nodes) c
  = count_layer_nodes fuel nodes c.
Proof.
  revert c. induction fuel as [|fuel IH]; intros c Hk; [done |].
  simpl. rewrite nodes_get_filter_ne by (intros Heq; by apply (Hk c)).
  destruct (nodes_get nodes (str c)); [| done].
  apply IH. intros c' Hc'. apply Hk. lia.
Qed.

(** The loop of [read_total_layers] ends: every round that goes on has
    found a node of a new name. *)
Lemma count_layer_nodes_terminates (fuel : nat) (nodes : list Node.t) (c : Z) :
  (length nodes < fuel)%nat → is_Some (count_layer_nodes fuel nodes c).
Proof.
  revert nodes c. induction fuel as [|fuel IH]; intros nodes c Hlen; [lia |].
  simpl. destruct (nodes_get nodes (str c)) as [n|] eqn:Hget; [| by eexists].
  rewrite <- (count_layer_nodes_filter fuel nodes (str c) (c + 1)).
  - apply IH.
    assert (is_Some (nodes_get nodes (str c))) as Hsome by (by eexists).
    apply nodes_get_filter_length in Hsome. lia.
  - intros c' Hc' Heq. apply (inj pretty) in Heq. lia.
Qed.

(** What the loop returns is the first name it does not find. *)
Lemma count_layer_nodes_first_miss (fuel : nat) (nodes : list Node.t) (c r : Z) :
  count_layer_nodes fuel nodes c = Some r →
  c ≤ r ∧ nodes_get nodes (str r) = None ∧
  ∀ k, c ≤ k < r → is_Some (nodes_get nodes (str k)).
Proof.
  revert c. induction fuel as [|fuel IH]; intros c; [done |].
  simpl. destruct (nodes_get nodes (str c)) as [n|] eqn:Hget.
  - intros Hrec. destruct (IH _ Hrec) as (Hle & Hmiss & Hhits).
    split; [lia |]. split; [done |]. intros k Hk.
    destruct (decide (k = c)) as [-> | Hne]; [by eexists | apply Hhits; lia].
  - intros [= <-]. split; [lia |]. split; [done |]. intros k Hk. lia.
Qed.

Lemma read_total_layers_run (h : bpy) :
  read_total_layers h =
  match active_nodes h with
  | Some nodes => of_loop (count_layer_nodes (S (length nodes)) nodes 1) h
  | None => Raises AttributeError h
  end.
Proof.
  unfold read_total_layers, active_nodes, active_object_active_material,
    mbind, py_bind, get, attr_of; simpl.
  destruct (context_active_object h) as [o|]; simpl; [| done].
  by destruct (Object.active_material o).
Qed.

(** [read_total_layers] returns whenever there is an active material, it
    leaves the state alone, and its value is the first integer from 1 on
    that names no node of the tree. *)
Lemma read_total_layers_first_miss (h : bpy) (nodes : list Node.t) :
  active_nodes h = Some nodes →
  ∃ r, read_total_layers h = Returns r h ∧ 1 ≤ r ∧
       nodes_get nodes (str r) = None ∧
       ∀ k, 1 ≤ k < r → is_Some (nodes_get nodes (str k)).
Proof.
  intros Hnodes. rewrite read_total_layers_run, Hnodes.
  destruct (count_layer_nodes_terminates (S (length nodes)) nodes 1)
    as [r Hr]; [lia |].
  exists r. rewrite Hr. split; [done |].
  by apply count_layer_nodes_first_miss in Hr.
Qed.

(** For a tree whose nodes are named "0" to "n-1", with at least one node,
    the count is [n]. *)
Lemma read_total_layers_consecutive (h : bpy) (nodes : list Node.t) (n : Z) :
  active_nodes h = Some nodes →
  Node.name <$> nodes ≡ₚ str <$> seqZ 0 n →
  1 ≤ n →
  read_total_layers h = Returns n h.
Proof.
  intros Hnodes Hnames Hn.
  assert (∀ k, is_Some (nodes_get nodes (str k)) ↔ 0 ≤ k < n) as Hhit.
  { intros k. rewrite nodes_get_is_Some, Hnames, list_elem_of_fmap. split.
    - intros (k' & Heq & Hin). apply (inj pretty) in Heq as <-.
      apply elem_of_seqZ in Hin. lia.
    - intros Hk. exists k. split; [done |]. apply elem_of_seqZ. lia. }
  destruct (read_total_layers_first_miss h nodes Hnodes)
    as (r & -> & Hr & Hmiss & Hhits).
  f_equal. destruct (decide (r < n)) as [Hlt | Hge].
  - assert (is_Some (nodes_get nodes (str r))) as [? Hsome] by (apply Hhit; lia).
    congruence.
  - destruct (decide (r = n)) as [-> | Hne]; [done |].
    assert (is_Some (nodes_get nodes (str n))) as Hsome by (apply Hhits; lia).
    apply Hhit in Hsome. lia.
Qed.

(** C4, where it fails.  The loop starts at 1, not at 0: for a node tree
    without any layer node the count is 1, and for a tree whose only layer
    node is "1" it is 2; with "0" and "1" it is 2 as well. *)
Theorem read_total_layers_starts_at_one :
  read_total_layers (editing "MESH" [] [] (-1))
    = Returns 1 (editing "MESH" [] [] (-1)) ∧
  read_total_layers (editing "MESH" [layer_group_node "1"] [] (-1))
    = Returns 2 (editing "MESH" [layer_group_node "1"] [] (-1)) ∧
  read_total_layers
    (editing "MESH" [layer_group_node "0"; layer_group_node "1"] [] (-1))
    = Returns 2
        (editing "MESH" [layer_group_node "0"; layer_group_node "1"] [] (-1)).
Proof. repeat split; vm_compute; reflexivity. Qed.

(** Deleting a slot leaves the active object, and with it every node tree,
    as it was. *)
Lemma MATLAYER_OT_delete_layer_keeps_graph (h h' : bpy) :
  MATLAYER_OT_delete_layer_execute h = Returns FINISHED h' →
  context_active_object h' = context_active_object h.
Proof. rewrite MATLAYER_OT_delete_layer_execute_run. by intros [= <-]. Qed.

(** C1, where it fails.  A material with the layer node "0" and a store
    with one slot agree on the count 1.  Deleting the slot empties the
    store, but the node stays in the tree: the count from the graph is
    still 1, the length of the store 0. *)
Theorem MATLAYER_OT_delete_layer_breaks_layer_count :
  read_total_layers (editing "MESH" [layer_group_node "0"] [slot "A"] 0)
    = Returns (len [slot "A"])
        (editing "MESH" [layer_group_node "0"] [slot "A"] 0) ∧
  ∃ h', MATLAYER_OT_delete_layer_execute
          (editing "MESH" [layer_group_node "0"] [slot "A"] 0)
          = Returns FINISHED h' ∧
        len (scene_matlayer_layers h') = 0 ∧
        read_total_layers h' = Returns 1 h'.
Proof.
  split; [vm_compute; reflexivity |].
  eexists. split; [vm_compute; reflexivity |].
  split; vm_compute; reflexivity.
Qed.

(** ** Looking up a node of a layer *)

Lemma get_material_layer_node_run_active_object (h : bpy) (o : Object.t)
  (layer_node_name : string) (layer_index : Z) (material_channel_name : string) :
  context_active_object h = Some o →
  Object.active_material o = None →
  get_material_layer_node layer_node_name layer_index material_channel_name h
  = Returns None h.
Proof.
  intros Ho Hm.
  unfold get_material_layer_node, active_object_active_material, mbind,
    py_bind, get, attr_of. rewrite Ho. simpl. by rewrite Hm.
Qed.

Lemma get_material_layer_node_unrecognized (h : bpy) (o : Object.t)
  (layer_node_name : string) (layer_index : Z) (material_channel_name : string) :
  context_active_object h = Some o →
  layer_node_name ∉ recognized_kinds →
  get_material_layer_node layer_node_name layer_index material_channel_name h
  = Returns None h.
Proof.
  intros Ho Hkind.
  unfold get_material_layer_node, active_object_active_material, mbind,
    py_bind, get, attr_of. rewrite Ho. simpl.
  destruct (Object.active_material o) as [m|]; [| done].
  unfold recognized_kinds in Hkind.
  repeat (apply not_elem_of_cons in Hkind as [? Hkind]).
  by rewrite !bool_decide_eq_false_2 by done.
Qed.

(** C10, as the code has it.  With an active object, the function returns
    [None] and raises nothing when the object has no active material, and
    when the name of the node kind is none of the seven it knows. *)
Theorem get_material_layer_node_returns_None (h : bpy) (o : Object.t)
  (layer_node_name : string) (layer_index : Z) (material_channel_name : string) :
  context_active_object h = Some o →
  Object.active_material o = None ∨ layer_node_name ∉ recognized_kinds →
  get_material_layer_node layer_node_name layer_index material_channel_name h
  = Returns None h.
Proof.
  intros Ho [Hm | Hkind].
  - by eapply get_material_layer_node_run_active_object.
  - by eapply get_material_layer_node_unrecognized.
Qed.

Lemma get_material_layer_node_returns_None_witness :
  get_material_layer_node "BLUR" 0 "Color"
    (editing "MESH" [layer_group_node "0"] [slot "A"] 0)
  = Returns None (editing "MESH" [layer_group_node "0"] [slot "A"] 0).
Proof.
  apply (get_material_layer_node_returns_None _
           (object_of "MESH" [layer_group_node "0"])); [reflexivity |].
  right. apply (bool_decide_unpack _). vm_compute. exact I.
Defined.

(** C10 as it is stated fails where there is no active object, hence no
    active material either: the call raises [AttributeError], for a known
    kind and for an unknown one. *)
Lemma get_material_layer_node_no_active_object :
  context_active_object (scene_only [] (-1) []) = None ∧
  get_material_layer_node "LAYER" 0 "Color" (scene_only [] (-1) [])
    = Raises AttributeError (scene_only [] (-1) []) ∧
  get_material_layer_node "BLUR" 0 "Color" (scene_only [] (-1) [])
    = Raises AttributeError (scene_only [] (-1) []).
Proof. repeat split. Qed.

(** ** Failed lookups in the node graph *)

Lemma active_material_set_active_material (o : Object.t) (m m' : Material.t) :
  Object.active_material o = Some m →
  Object.active_material (set_active_material m' o) = Some m'.
Proof.
  unfold Object.active_material, set_active_material. simpl.
  destruct (Object.material_slots o !! Object.active_material_index o)
    as [[m0|]|] eqn:Hslot; [| done..].
  intros _. rewrite list_lookup_insert_eq; [done |].
  by eapply lookup_lt_Some.
Qed.

Lemma set_active_material_twice (o : Object.t) (m m' : Material.t) :
  set_active_material m (set_active_material m' o) = set_active_material m o.
Proof.
  unfold set_active_material, Object.set_material_slots. simpl.
  by rewrite list_insert_insert_eq.
Qed.

Lemma map_active_node_tree_twice (f g : NodeTree.t → NodeTree.t) (h : bpy) :
  map_active_node_tree f (map_active_node_tree g h)
  = map_active_node_tree (f ∘ g) h.
Proof.
  unfold map_active_node_tree.
  destruct (context_active_object h) as [o|] eqn:Ho; [| by rewrite Ho].
  destruct (Object.active_material o) as [m|] eqn:Hm; [| by rewrite Ho, Hm].
  cbn. erewrite active_material_set_active_material by done.
  cbn. by rewrite set_active_material_twice.
Qed.

Lemma map_active_node_tree_ext (f g : NodeTree.t → NodeTree.t) (h : bpy) :
  (∀ t, f t = g t) → map_active_node_tree f h = map_active_node_tree g h.
Proof.
  intros Hfg. unfold map_active_node_tree.
  destruct (context_active_object h) as [o|]; [| done].
  destruct (Object.active_material o) as [m|]; [| done].
  cbn. by rewrite Hfg.
Qed.

Lemma without_links_set_links (g : list NodeLink.t → list NodeLink.t) (h : bpy) :
  without_links
    (map_active_node_tree (λ t, NodeTree.set_links (g (NodeTree.links t)) t) h)
  = without_links h.
Proof.
  unfold without_links. rewrite map_active_node_tree_twice.
  by apply map_active_node_tree_ext.
Qed.

Lemma active_nodes_map_active_node_tree (f : NodeTree.t → NodeTree.t) (h : bpy) :
  (∀ t, NodeTree.nodes (f t) = NodeTree.nodes t) →
  active_nodes (map_active_node_tree f h) = active_nodes h.
Proof.
  intros Hf. unfold active_nodes, map_active_node_tree.
  destruct (context_active_object h) as [o|] eqn:Ho; [| by rewrite Ho].
  destruct (Object.active_material o) as [m|] eqn:Hm; [| by rewrite Ho].
  cbn. erewrite active_material_set_active_material by done.
  cbn. by rewrite Hm, Hf.
Qed.

Lemma without_links_frame (h h' : bpy) :
  without_links h' = without_links h →
  scene_matlayer_layers h' = scene_matlayer_layers h ∧
  scene_matlayer_layer_stack h' = scene_matlayer_layer_stack h ∧
  data_node_groups h' = data_node_groups h ∧
  active_nodes h' = active_nodes h.
Proof.
  intros Heq.
  assert (∀ x, scene_matlayer_layers (without_links x) = scene_matlayer_layers x
               ∧ scene_matlayer_layer_stack (without_links x)
                 = scene_matlayer_layer_stack x
               ∧ data_node_groups (without_links x) = data_node_groups x
               ∧ active_nodes (without_links x) = active_nodes x) as Hproj.
  { intros x. split; [| split; [| split]].
    - unfold without_links, map_active_node_tree.
      destruct (context_active_object x) as [o|]; [| done].
      by destruct (Object.active_material o).
    - unfold without_links, map_active_node_tree.
      destruct (context_active_object x) as [o|]; [| done].
      by destruct (Object.active_material o).
    - unfold without_links, map_active_node_tree.
      destruct (context_active_object x) as [o|]; [| done].
      by destruct (Object.active_material o).
    - by apply active_nodes_map_active_node_tree. }
  destruct (Hproj h) as (<- & <- & <- & <-).
  destruct (Hproj h') as (<- & <- & <- & <-).
  by rewrite Heq.
Qed.

Lemma reads_only_only_links {A : Type} (m : py A) :
  reads_only m → only_links m.
Proof.
  intros Hm h. specialize (Hm h). by destruct (m h); subst.
Qed.

Lemma only_links_bind {A B : Type} (m : py A) (f : A → py B) :
  only_links m → (∀ a, only_links (f a)) → only_links (m ≫= f).
Proof.
  intros Hm Hf h. unfold mbind, py_bind. specialize (Hm h).
  destruct (m h) as [a h1|e h1|]; [| done..].
  specialize (Hf a h1). destruct (f a h1); congruence.
Qed.

Lemma reads_only_bind {A B : Type} (m : py A) (f : A → py B) :
  reads_only m → (∀ a, reads_only (f a)) → reads_only (m ≫= f).
Proof.
  intros Hm Hf h. unfold mbind, py_bind. specialize (Hm h).
  destruct (m h) as [a h1|e h1|]; [| done..]. subst h1.
  apply Hf.
Qed.

Lemma reads_only_ret {A : Type} (a : A) : reads_only (mret a).
Proof. by intros h. Qed.

Lemma reads_only_raise {A : Type} (e : exn) : reads_only (@raise A e).
Proof. by intros h. Qed.

Lemma reads_only_get : reads_only get.
Proof. by intros h. Qed.

Lemma reads_only_attr_of {A : Type} (x : option A) : reads_only (attr_of x).
Proof. destruct x; [apply reads_only_ret | apply reads_only_raise]. Qed.

Lemma reads_only_active_object_active_material :
  reads_only active_object_active_material.
Proof.
  apply reads_only_bind; [apply reads_only_get |]. intros h.
  apply reads_only_bind; [apply reads_only_attr_of |]. intros o.
  apply reads_only_ret.
Qed.

Lemma reads_only_read_total_layers : reads_only read_total_layers.
Proof.
  intros h. rewrite read_total_layers_run.
  destruct (active_nodes h) as [nodes|]; [| done].
  destruct (count_layer_nodes_terminates (S (length nodes)) nodes 1)
    as [r ->]; [lia | done].
Qed.

Lemma reads_only_get_material_layer_node (layer_node_name : string)
  (layer_index : Z) (material_channel_name : string) :
  reads_only
    (get_material_layer_node layer_node_name layer_index material_channel_name).
Proof.
  unfold get_material_layer_node.
  apply reads_only_bind; [apply reads_only_active_object_active_material |].
  intros [m|]; [| apply reads_only_ret].
  assert (∀ node_name,
    reads_only
      (h ← get;
       group ← attr_of
         (node_groups_get (data_node_groups h)
            (format_layer_group_node_name (Material.name m) layer_index));
       mret (nodes_get (NodeTree.nodes group) node_name))) as Hgroup.
  { intros node_name.
    apply reads_only_bind; [apply reads_only_get |]. intros h.
    apply reads_only_bind; [apply reads_only_attr_of |]. intros g.
    apply reads_only_ret. }
  repeat case_bool_decide; try apply Hgroup; apply reads_only_ret.
Qed.

Lemma only_links_link (from_node : option Node.t) (output : string)
  (to_node : option Node.t) (input : string) :
  only_links (link from_node output to_node input).
Proof.
  unfold link.
  apply only_links_bind; [apply reads_only_only_links, reads_only_attr_of |].
  intros n1.
  apply only_links_bind; [apply reads_only_only_links, reads_only_attr_of |].
  intros n2.
  destruct (sockets_get _ _ output) as [o|];
    [| apply reads_only_only_links, reads_only_raise].
  destruct (sockets_get _ _ input) as [i|];
    [| apply reads_only_only_links, reads_only_raise].
  intros h. unfold modify_active_node_tree, modify.
  apply (without_links_set_links (links_new o i)).
Qed.

Lemma only_links_connect_layer_group_nodes :
  only_links connect_layer_group_nodes.
Proof.
  unfold connect_layer_group_nodes.
  apply only_links_bind;
    [apply reads_only_only_links, reads_only_read_total_layers |]. intros _.
  apply only_links_bind;
    [apply reads_only_only_links, reads_only_active_object_active_material |].
  intros om.
  apply only_links_bind; [apply reads_only_only_links, reads_only_attr_of |].
  intros m.
  apply only_links_bind;
    [apply reads_only_only_links, reads_only_get_material_layer_node |].
  intros layer_node.
  repeat (apply only_links_bind; [apply only_links_link | intros _]).
  apply only_links_link.
Qed.

Lemma active_object_active_material_run (h : bpy) (o : Object.t) :
  context_active_object h = Some o →
  active_object_active_material h = Returns (Object.active_material o) h.
Proof.
  intros Ho. unfold active_object_active_material, mbind, py_bind, get, attr_of.
  by rewrite Ho.
Qed.

Lemma get_material_layer_node_LAYER (h : bpy) (o : Object.t) (m : Material.t)
  (layer_index : Z) (material_channel_name : string) :
  context_active_object h = Some o →
  Object.active_material o = Some m →
  get_material_layer_node "LAYER" layer_index material_channel_name h
  = Returns (nodes_get (NodeTree.nodes (Material.node_tree m)) (str layer_index)) h.
Proof.
  intros Ho Hm. unfold get_material_layer_node, mbind, py_bind.
  rewrite (active_object_active_material_run h o Ho), Hm. done.
Qed.

Lemma get_material_layer_node_group_missing (h : bpy) (o : Object.t)
  (m : Material.t) (layer_node_name : string) (layer_index : Z)
  (material_channel_name : string) :
  context_active_object h = Some o →
  Object.active_material o = Some m →
  layer_node_name ∈ group_kinds →
  node_groups_get (data_node_groups h)
    (format_layer_group_node_name (Material.name m) layer_index) = None →
  get_material_layer_node layer_node_name layer_index material_channel_name h
  = Raises AttributeError h.
Proof.
  intros Ho Hm Hkind Hgroup. unfold get_material_layer_node, mbind, py_bind.
  rewrite (active_object_active_material_run h o Ho), Hm.
  unfold group_kinds in Hkind.
  repeat (apply elem_of_cons in Hkind as [-> | Hkind];
          [simpl; unfold mbind, py_bind, get, attr_of; by rewrite Hgroup |]).
  by apply elem_of_nil in Hkind.
Qed.

Lemma connect_layer_group_nodes_aborts (h : bpy) (o : Object.t) (m : Material.t) :
  context_active_object h = Some o →
  Object.active_material o = Some m →
  nodes_get (NodeTree.nodes (Material.node_tree m)) "0" = None ∨
  nodes_get (NodeTree.nodes (Material.node_tree m)) "MATLAYER_BSDF" = None →
  connect_layer_group_nodes h = Raises AttributeError h.
Proof.
  intros Ho Hm Hmissing.
  unfold connect_layer_group_nodes, mbind at 1, py_bind at 1.
  assert (active_nodes h = Some (NodeTree.nodes (Material.node_tree m)))
    as Hnodes by (unfold active_nodes; rewrite Ho; simpl; by rewrite Hm).
  destruct (read_total_layers_first_miss h _ Hnodes) as (r & -> & _).
  unfold mbind at 1, py_bind at 1.
  rewrite (active_object_active_material_run h o Ho), Hm.
  unfold mbind at 1, py_bind at 1. simpl.
  unfold mbind at 1, py_bind at 1.
  rewrite (get_material_layer_node_LAYER h o m 0 "Color" Ho Hm).
  change (str 0) with "0"%string.
  unfold mbind at 1, py_bind at 1, link at 1.
  unfold mbind at 1, py_bind at 1.
  destruct Hmissing as [-> | Hbsdf]; [done |].
  destruct (nodes_get _ "0") as [n|]; [| done]. simpl.
  unfold mbind at 1, py_bind at 1. by rewrite Hbsdf.
Qed.

(** C6, as the code has it.  A lookup that fails is not given a condition
    of its own: with an active material, [get_material_layer_node] returns
    [None] for a layer node that is not in the tree, and raises the
    [AttributeError] of the access on [None] when the node group of the
    layer is missing; [connect_layer_group_nodes] raises that
    [AttributeError] with everything as it was when the layer node "0" or
    the node "MATLAYER_BSDF" is missing.  However the latter ends, it has
    changed links only: slots, selection, node groups and the nodes of the
    tree are the same, and so is the layer count. *)
Theorem connect_layer_group_nodes_lookup_failure (h : bpy) (o : Object.t)
  (m : Material.t) :
  context_active_object h = Some o →
  Object.active_material o = Some m →
  (∀ i channel,
     nodes_get (NodeTree.nodes (Material.node_tree m)) (str i) = None →
     get_material_layer_node "LAYER" i channel h = Returns None h) ∧
  (∀ kind i channel, kind ∈ group_kinds →
     node_groups_get (data_node_groups h)
       (format_layer_group_node_name (Material.name m) i) = None →
     get_material_layer_node kind i channel h = Raises AttributeError h) ∧
  (nodes_get (NodeTree.nodes (Material.node_tree m)) "0" = None ∨
   nodes_get (NodeTree.nodes (Material.node_tree m)) "MATLAYER_BSDF" = None →
   connect_layer_group_nodes h = Raises AttributeError h) ∧
  ∃ h', (connect_layer_group_nodes h = Returns tt h' ∨
         ∃ e, connect_layer_group_nodes h = Raises e h') ∧
        scene_matlayer_layers h' = scene_matlayer_layers h ∧
        scene_matlayer_layer_stack h' = scene_matlayer_layer_stack h ∧
        data_node_groups h' = data_node_groups h ∧
        active_nodes h' = active_nodes h ∧
        ∃ r, read_total_layers h = Returns r h ∧
             read_total_layers h' = Returns r h'.
Proof.
  intros Ho Hm. split; [| split; [| split]].
  - intros i channel Hmiss.
    by rewrite (get_material_layer_node_LAYER h o m i channel Ho Hm), Hmiss.
  - intros kind i channel. by apply (get_material_layer_node_group_missing h o).
  - by apply (connect_layer_group_nodes_aborts h o).
  - pose proof (only_links_connect_layer_group_nodes h) as Hframe.
    assert (active_nodes h = Some (NodeTree.nodes (Material.node_tree m)))
      as Hnodes by (unfold active_nodes; rewrite Ho; simpl; by rewrite Hm).
    destruct (read_total_layers_first_miss h _ Hnodes) as (r & Hr & _).
    assert (∀ h', without_links h' = without_links h →
              scene_matlayer_layers h' = scene_matlayer_layers h ∧
              scene_matlayer_layer_stack h' = scene_matlayer_layer_stack h ∧
              data_node_groups h' = data_node_groups h ∧
              active_nodes h' = active_nodes h ∧
              ∃ r, read_total_layers h = Returns r h ∧
                   read_total_layers h' = Returns r h') as Hfinal.
    { intros h' Heq.
      destruct (without_links_frame h h' Heq) as (Hl & Hs & Hg & Hn).
      repeat split; try done. exists r. split; [done |].
      rewrite read_total_layers_run in *. rewrite Hn.
      destruct (active_nodes h) as [nodes|]; [| done].
      unfold of_loop in *.
      destruct (count_layer_nodes _ nodes 1); [| done].
      by injection Hr as ->. }
    destruct (connect_layer_group_nodes h) as [[] h'|e h'|]; [| | done].
    + exists h'. split; [by left | by apply Hfinal].
    + exists h'. split; [right; by exists e | by apply Hfinal].
Qed.

Lemma connect_layer_group_nodes_lookup_failure_witness :
  connect_layer_group_nodes
    (editing "MESH" [principled_bsdf_node; normal_height_mix_node] [] (-1))
  = Raises AttributeError
      (editing "MESH" [principled_bsdf_node; normal_height_mix_node] [] (-1)).
Proof.
  destruct (connect_layer_group_nodes_lookup_failure
              (editing "MESH" [principled_bsdf_node; normal_height_mix_node]
                 [] (-1))
              (object_of "MESH" [principled_bsdf_node; normal_height_mix_node])
              (material_of [principled_bsdf_node; normal_height_mix_node])
              eq_refl eq_refl) as (_ & _ & Habort & _).
  apply Habort. left. reflexivity.
Defined.

(** C6 as it is stated fails twice.  The lookup of a layer node that is not
    there gives [None] and no error.  And when only the node
    "NORMAL_HEIGHT_MIX" is missing, [connect_layer_group_nodes] has made
    seven links before the [AttributeError] comes. *)
Lemma lookup_failure_silent_or_after_links :
  get_material_layer_node "LAYER" 0 "Color" (editing "MESH" [] [] (-1))
    = Returns None (editing "MESH" [] [] (-1)) ∧
  active_links
    (editing "MESH" [layer_group_node "0"; principled_bsdf_node] [] (-1))
    = Some [] ∧
  ∃ h', connect_layer_group_nodes
          (editing "MESH" [layer_group_node "0"; principled_bsdf_node] [] (-1))
          = Raises AttributeError h' ∧
        length <$> active_links h' = Some 7%nat.
Proof.
  split; [reflexivity |]. split; [reflexivity |].
  eexists. split; vm_compute; reflexivity.
Qed.

(** ** The commands when a precondition fails *)

Lemma MATLAYER_OT_add_material_layer_not_a_mesh (utils : blender_addon_utils)
  (h : bpy) (o : Object.t) :
  context_active_object h = Some o →
  Object.type o ≠ "MESH" →
  MATLAYER_OT_add_material_layer_execute utils h
  = Returns FINISHED
      (set_reports
         (reports h ++ [("ERROR", "Selected object must be a mesh to add materials")])
         (set_node_groups
            (append_default_node_groups utils (data_node_groups h)) h)).
Proof.
  intros Ho Htype.
  unfold MATLAYER_OT_add_material_layer_execute, mbind, py_bind, get, modify,
    attr_of. rewrite Ho. simpl.
  rewrite bool_decide_eq_true_2 by done. reflexivity.
Qed.

Lemma MATLAYER_OT_add_material_layer_no_active_object
  (utils : blender_addon_utils) (h : bpy) :
  context_active_object h = None →
  MATLAYER_OT_add_material_layer_execute utils h
  = Raises AttributeError
      (set_node_groups (append_default_node_groups utils (data_node_groups h)) h).
Proof.
  intros Ho.
  unfold MATLAYER_OT_add_material_layer_execute, mbind, py_bind, get, modify,
    attr_of. by rewrite Ho.
Qed.

(** C5, as the code has it.  When there is no active object, or the active
    object is not a mesh, every command but Delete Layer leaves the slots,
    the layer stack state and the active object with its node trees as they
    were.  Add Material Layer on an object that is not a mesh reports the
    error, after the default node groups went into the host's library, and
    without an active object it raises [AttributeError], the default node
    groups in the library as well; the four other commands return at once
    and report nothing. *)
Theorem layer_commands_precondition_failed (utils : blender_addon_utils)
  (c : layer_command) (h : bpy) :
  precondition_failed h →
  c ≠ delete_layer →
  match execute utils c h with
  | Returns _ h' | Raises _ h' =>
      scene_matlayer_layers h' = scene_matlayer_layers h ∧
      scene_matlayer_layer_stack h' = scene_matlayer_layer_stack h ∧
      context_active_object h' = context_active_object h
  | Diverges => False
  end ∧
  (∀ o, context_active_object h = Some o →
     execute utils add_material_layer h
     = Returns FINISHED
         (set_reports
            (reports h
               ++ [("ERROR", "Selected object must be a mesh to add materials")])
            (set_node_groups
               (append_default_node_groups utils (data_node_groups h)) h))) ∧
  (context_active_object h = None →
     execute utils add_material_layer h
     = Raises AttributeError
         (set_node_groups
            (append_default_node_groups utils (data_node_groups h)) h)) ∧
  (c ≠ add_material_layer → execute utils c h = Returns FINISHED h).
Proof.
  intros Hpre Hc. unfold precondition_failed in Hpre.
  split; [| split; [| split]].
  - destruct c; try done. simpl.
    destruct (context_active_object h) as [o|] eqn:Ho.
    + by rewrite (MATLAYER_OT_add_material_layer_not_a_mesh utils h o Ho Hpre).
    + by rewrite (MATLAYER_OT_add_material_layer_no_active_object utils h Ho).
  - intros o Ho. rewrite Ho in Hpre.
    by apply (MATLAYER_OT_add_material_layer_not_a_mesh utils h o).
  - intros Ho. by apply MATLAYER_OT_add_material_layer_no_active_object.
  - intros Hadd. by destruct c.
Qed.

Lemma layer_commands_precondition_failed_witness :
  execute template_library add_material_layer
    (editing "CAMERA" [layer_group_node "0"] [slot "A"] 0)
  = Returns FINISHED
      (mk_bpy (Some (object_of "CAMERA" [layer_group_node "0"])) [slot "A"]
         (layer_stack_at 0) [default_layer_group] []
         [("ERROR", "Selected object must be a mesh to add materials")]) ∧
  execute template_library add_material_layer (scene_only [slot "A"] 0 [])
  = Raises AttributeError
      (mk_bpy None [slot "A"] (layer_stack_at 0) [default_layer_group] [] []).
Proof.
  assert (add_material_layer ≠ delete_layer) as Hc by discriminate.
  split.
  - assert (precondition_failed
              (editing "CAMERA" [layer_group_node "0"] [slot "A"] 0)) as Hpre
      by (simpl; discriminate).
    destruct (layer_commands_precondition_failed template_library
                add_material_layer _ Hpre Hc) as (_ & Hreport & _).
    exact (Hreport _ eq_refl).
  - assert (precondition_failed (scene_only [slot "A"] 0 [])) as Hpre
      by (simpl; exact I).
    destruct (layer_commands_precondition_failed template_library
                add_material_layer _ Hpre Hc) as (_ & _ & Hraises & _).
    exact (Hraises eq_refl).
Defined.

(** C5 as it is stated fails twice on an active object that is a camera:
    Add Paint Layer reports nothing, and Delete Layer reports nothing and
    takes the selected slot out of the store. *)
Lemma commands_on_a_camera :
  precondition_failed (editing "CAMERA" [layer_group_node "0"] [slot "A"] 0) ∧
  (∃ h', execute template_library add_paint_material_layer
           (editing "CAMERA" [layer_group_node "0"] [slot "A"] 0)
           = Returns FINISHED h' ∧ reports h' = []) ∧
  (∃ h', execute template_library delete_layer
           (editing "CAMERA" [layer_group_node "0"] [slot "A"] 0)
           = Returns FINISHED h' ∧
         reports h' = [] ∧
         scene_matlayer_layers h' = [] ∧
         scene_matlayer_layers h'
         ≠ scene_matlayer_layers
             (editing "CAMERA" [layer_group_node "0"] [slot "A"] 0)).
Proof.
  split; [simpl; discriminate |]. split.
  - eexists. split; [vm_compute; reflexivity | reflexivity].
  - eexists. split; [vm_compute; reflexivity |]. by repeat split.
Qed.

(** The add command on a mesh without materials, with the template
    library above: the slot is added and the new node gets the name that
    [add_material_layer_slot] returned, "-1"; there is no layer node "0" to
    connect, and the command ends in the [AttributeError] of
    [connect_layer_group_nodes]. *)
Lemma MATLAYER_OT_add_material_layer_on_fresh_mesh :
  ∃ h', execute template_library add_material_layer
          (mk_bpy (Some (Object.mk "Cube" "MESH" [] 0)) []
             (layer_stack_at (-1)) [] [5] [])
          = Raises AttributeError h' ∧
        slot_ids (scene_matlayer_layers h') = ["5"] ∧
        selected h' = -1 ∧
        (λ nodes : list Node.t, Node.name <$> nodes) <$> active_nodes h'
        = Some ["MATLAYER_BSDF"; "NORMAL_HEIGHT_MIX"; "-1"].
Proof. eexists. repeat split; vm_compute; reflexivity. Qed.

(** ** The host's rule for names: the name given is free *)

Lemma no_char_app_sep (c : ascii) (a b : string) :
  ¬ no_char c (a +:+ String c b).
Proof.
  induction a as [|d a IH].
  - rewrite append_EmptyString. intros [Hc _]. by apply Hc.
  - rewrite append_String. intros [_ H]. by apply IH.
Qed.

Lemma split_at_last (c : ascii) (a1 a2 d1 d2 : string) :
  no_char c d1 → no_char c d2 →
  a1 +:+ String c d1 = a2 +:+ String c d2 → a1 = a2 ∧ d1 = d2.
Proof.
  intros Hd1 Hd2. revert a2.
  induction a1 as [|c1 a1 IH]; intros [|c2 a2];
    repeat (rewrite append_EmptyString || rewrite append_String);
    intros Heq.
  - by simplify_eq.
  - exfalso. injection Heq as _ Heq. subst d1.
    by apply (no_char_app_sep c a2 d2).
  - exfalso. injection Heq as _ Heq. subst d2.
    by apply (no_char_app_sep c a1 d1).
  - injection Heq as -> Heq. destruct (IH _ Heq) as [-> ->]. done.
Qed.

Lemma pretty_N_char_no_dot (x : N) : pretty_N_char x ≠ "."%char.
Proof. unfold pretty_N_char. by repeat case_match. Qed.

Lemma pretty_N_go_no_dot (x : N) (s : string) :
  no_char "." s → no_char "." (pretty_N_go x s).
Proof.
  revert s. induction (N.lt_wf_0 x) as [x _ IH]; intros s Hs.
  destruct (decide (x = 0)%N) as [->|Hx].
  - by rewrite pretty_N_go_0.
  - rewrite pretty_N_go_step by lia. apply IH.
    + apply N.div_lt; lia.
    + split; [apply pretty_N_char_no_dot | done].
Qed.

Lemma str_no_dot (i : Z) : no_char "." (str i).
Proof.
  assert (∀ x : N, no_char "." (pretty x)) as HN.
  { intros x. unfold pretty, pretty_N. case_decide; [by split |].
    by apply pretty_N_go_no_dot. }
  unfold str, pretty, pretty_Z. destruct i as [|p|p].
  - by split.
  - apply HN.
  - split; [done | apply HN].
Qed.

Lemma digit_value_pretty_N_char (d : N) :
  (d < 10)%N → digit_value (pretty_N_char d) = Z.of_N d.
Proof.
  intros Hd.
  assert (d = 0 ∨ d = 1 ∨ d = 2 ∨ d = 3 ∨ d = 4 ∨ d = 5 ∨ d = 6 ∨ d = 7
          ∨ d = 8 ∨ d = 9)%N as Hcases by lia.
  repeat (destruct Hcases as [-> | Hcases]; [reflexivity |]).
  by subst.
Qed.

Lemma number_of_pretty_N_go (x : N) (s : string) :
  number_of 0 (pretty_N_go x s) = number_of (Z.of_N x) s.
Proof.
  revert s. induction (N.lt_wf_0 x) as [x _ IH]; intros s.
  destruct (decide (x = 0)%N) as [->|Hx].
  - by rewrite pretty_N_go_0.
  - rewrite pretty_N_go_step by lia.
    rewrite (IH (x `div` 10)%N); [| apply N.div_lt; lia].
    cbn [number_of].
    rewrite digit_value_pretty_N_char; [| apply N.mod_lt; lia].
    f_equal. pose proof (N.div_mod x 10). lia.
Qed.

Lemma number_of_str (k : Z) : 0 ≤ k → number_of 0 (str k) = k.
Proof.
  intros Hk. unfold str, pretty, pretty_Z. destruct k as [|p|p]; [done | | lia].
  unfold pretty, pretty_positive, pretty, pretty_N. case_decide; [lia |].
  by rewrite number_of_pretty_N_go.
Qed.

Lemma name_suffix_inj (j k : Z) (a b : string) :
  0 ≤ j → 0 ≤ k → a +:+ name_suffix j = b +:+ name_suffix k → j = k.
Proof.
  intros Hj Hk. unfold name_suffix.
  set (pad (i : Z) := (if bool_decide (i < 10) then "00"
                       else if bool_decide (i < 100) then "0" else "")%string).
  change ("." +:+ pad j +:+ str j) with (String "." (pad j +:+ str j)).
  change ("." +:+ pad k +:+ str k) with (String "." (pad k +:+ str k)).
  assert (∀ i, no_char "." (pad i +:+ str i)) as Hdot.
  { intros i. pose proof (str_no_dot i). unfold pad.
    repeat case_bool_decide;
      repeat (rewrite append_EmptyString || rewrite append_String);
      repeat split; done. }
  assert (∀ i, 0 ≤ i → number_of 0 (pad i +:+ str i) = i) as Hnumber.
  { intros i Hi. unfold pad.
    repeat case_bool_decide;
      repeat (rewrite append_EmptyString || rewrite append_String);
      cbn [number_of]; by rewrite number_of_str. }
  intros Heq. apply split_at_last in Heq as [_ Heq]; [| apply Hdot ..].
  apply (f_equal (number_of 0)) in Heq.
  change (number_of 0 (pad j +:+ str j) = number_of 0 (pad k +:+ str k))
    in Heq.
  by rewrite (Hnumber j Hj), (Hnumber k Hk) in Heq.
Qed.

Lemma suffixed_inj (name : string) (j k : Z) :
  0 ≤ j → 0 ≤ k → suffixed name j = suffixed name k → j = k.
Proof. intros Hj Hk. unfold suffixed. by apply name_suffix_inj. Qed.

Lemma first_free_name_spec (fuel : nat) (taken : list string) (name : string)
  (k : Z) :
  first_free_name fuel taken name k ∉ taken ∨
  (∀ i, k ≤ i < k + Z.of_nat fuel → suffixed name i ∈ taken) ∧
  first_free_name fuel taken name k = suffixed name (k + Z.of_nat fuel).
Proof.
  revert k. induction fuel as [|fuel IH]; intros k.
  - right. split; [intros i Hi; lia |]. simpl. f_equal. lia.
  - cbn [first_free_name]. case_bool_decide as Htaken; [| by left].
    destruct (IH (k + 1)) as [Hfree | [Hall Hlast]]; [by left |].
    right. split.
    + intros i Hi. destruct (decide (i = k)) as [-> | Hne]; [done |].
      apply Hall. lia.
    + rewrite Hlast. f_equal. lia.
Qed.

(** The name that the host settles on is the name of no other item. *)
Lemma unique_name_fresh (taken : list string) (name : string) :
  unique_name taken name ∉ taken.
Proof.
  unfold unique_name. cbv zeta. case_bool_decide as Htaken; [| done].
  set (base := clip name_limit name) in *.
  destruct (first_free_name_spec (length taken) taken base 1)
    as [Hfree | [Hall Hlast]]; [done |].
  rewrite Hlast. intros Hin.
  set (candidates := suffixed base <$> seqZ 1 (Z.of_nat (length taken) + 1)).
  assert (NoDup candidates) as Hnodup.
  { apply NoDup_fmap_2_strong; [| apply NoDup_seqZ].
    intros i j Hi Hj. apply elem_of_seqZ in Hi, Hj.
    apply suffixed_inj; lia. }
  assert (candidates ⊆+ taken) as Hsub.
  { apply NoDup_submseteq; [done |]. intros x Hx.
    apply list_elem_of_fmap in Hx as (i & -> & Hi).
    apply elem_of_seqZ in Hi.
    destruct (decide (i = 1 + Z.of_nat (length taken))) as [-> | Hne];
      [done |].
    apply Hall. lia. }
  apply submseteq_length in Hsub. unfold candidates in Hsub.
  rewrite length_fmap, length_seqZ in Hsub. lia.
Qed.

(** The add command on a material that has a layer node "0" and a node
    group "Wood_0" already, with the selection at 0: the names that the
    command assigns are taken, and the host numbers them.  The new node is
    "0.001" and its node group "Wood_0.001". *)
Lemma MATLAYER_OT_add_material_layer_names_taken :
  ∃ h' nodes',
    state_after
      (execute template_library add_material_layer
         (set_random_draws [5]
            (set_node_groups [NodeTree.mk "Wood_0" [] [] [] []]
               (editing "MESH"
                  [principled_bsdf_node; normal_height_mix_node;
                   layer_group_node "0"] [slot "A"] 0)))) = Some h' ∧
    active_nodes h' = Some nodes' ∧
    Node.name <$> nodes'
      = ["MATLAYER_BSDF"; "NORMAL_HEIGHT_MIX"; "0"; "0.001"] ∧
    Node.node_tree <$> nodes' = [None; None; None; Some "Wood_0.001"] ∧
    NodeTree.name <$> data_node_groups h' = ["Wood_0"; "Wood_0.001"].
Proof.
  eexists _, _. split; [vm_compute; reflexivity |].
  split; [vm_compute; reflexivity |].
  split; [vm_compute; reflexivity |].
  split; vm_compute; reflexivity.
Qed.

(** The host's rule for names on a few names: a free name is kept, a taken
    one is numbered from ".001" on, and a name at the limit is cut for the
    number. *)
Lemma unique_name_examples :
  unique_name ["MATLAYER_BSDF"] "0" = "0" ∧
  unique_name ["0"; "Group"] "0" = "0.001" ∧
  unique_name ["0"; "0.001"; "0.003"] "0" = "0.002" ∧
  String.length
    (unique_name
       ["aaaaaaaaaaaaaaaaaaaaaaaaaaaaaaaaaaaaaaaaaaaaaaaaaaaaaaaaaaaaaaa"]
       "aaaaaaaaaaaaaaaaaaaaaaaaaaaaaaaaaaaaaaaaaaaaaaaaaaaaaaaaaaaaaaaaaaaaaa")
    = name_limit.
Proof.
  split; [vm_compute; reflexivity |]. split; [vm_compute; reflexivity |].
  split; vm_compute; reflexivity.
Qed.

(** * Further properties of the code *)

(** ** [read_total_layers] *)

(** With an active material [read_total_layers] always returns, changes
    nothing, and its value is the first integer from 1 on that is the name
    of no node: at least 1, and every integer from 1 below it names a
    node. *)
Theorem read_total_layers_first_missing_name (h : bpy) (nodes : list Node.t) :
  active_nodes h = Some nodes →
  ∃ r, read_total_layers h = Returns r h ∧ 1 ≤ r ∧
       nodes_get nodes (str r) = None ∧
       ∀ k, 1 ≤ k < r → is_Some (nodes_get nodes (str k)).
Proof. apply read_total_layers_first_miss. Qed.

Lemma read_total_layers_first_missing_name_witness :
  ∃ r, read_total_layers
         (editing "MESH" [layer_group_node "2"; layer_group_node "1";
                          layer_group_node "4"] [] (-1))
       = Returns r
           (editing "MESH" [layer_group_node "2"; layer_group_node "1";
                            layer_group_node "4"] [] (-1)) ∧
       1 ≤ r ∧
       nodes_get [layer_group_node "2"; layer_group_node "1";
                  layer_group_node "4"] (str r) = None.
Proof.
  destruct (read_total_layers_first_missing_name
              (editing "MESH" [layer_group_node "2"; layer_group_node "1";
                               layer_group_node "4"] [] (-1))
              _ eq_refl) as (r & Hr & Hle & Hmiss & _).
  by exists r.
Defined.

(** For a node tree whose nodes are named "0" to "n-1", in any order and
    with at least one node, [read_total_layers] returns [n]. *)
Theorem read_total_layers_counts_consecutive (h : bpy) (nodes : list Node.t)
  (n : Z) :
  active_nodes h = Some nodes →
  Node.name <$> nodes ≡ₚ str <$> seqZ 0 n →
  1 ≤ n →
  read_total_layers h = Returns n h.
Proof. apply read_total_layers_consecutive. Qed.

Lemma read_total_layers_counts_consecutive_witness :
  read_total_layers
    (editing "MESH" [layer_group_node "1"; layer_group_node "0";
                     layer_group_node "2"] [] (-1))
  = Returns 3
      (editing "MESH" [layer_group_node "1"; layer_group_node "0";
                       layer_group_node "2"] [] (-1)).
Proof.
  apply (read_total_layers_counts_consecutive _
           [layer_group_node "1"; layer_group_node "0"; layer_group_node "2"]);
    [reflexivity | | lia].
  change (["1"; "0"; "2"] ≡ₚ ["0"; "1"; "2"])%string. apply perm_swap.
Defined.

(** Nodes whose names are not decimal numbers from 1 on make no difference
    to the count: two trees with the same nodes under the names "1", "2",
    ... give the same count. *)
Lemma count_layer_nodes_same_hits (fuel : nat) (nodes nodes' : list Node.t)
  (c : Z) :
  (∀ k, c ≤ k →
     is_Some (nodes_get nodes (str k)) ↔ is_Some (nodes_get nodes' (str k))) →
  count_layer_nodes fuel nodes c = count_layer_nodes fuel nodes' c.
Proof.
  revert c. induction fuel as [|fuel IH]; intros c Hsame; [done |].
  simpl. pose proof (Hsame c ltac:(lia)) as Hc.
  destruct (nodes_get nodes (str c)) as [n|], (nodes_get nodes' (str c)) as [n'|].
  - apply IH. intros k Hk. apply Hsame. lia.
  - destruct Hc as [Hc _]. by destruct Hc.
  - destruct Hc as [_ Hc]. by destruct Hc.
  - done.
Qed.

(** Without an active object, and with an active object that has no active
    material, [read_total_layers] raises [AttributeError] and changes
    nothing. *)
Theorem read_total_layers_without_material (h : bpy) :
  active_nodes h = None →
  read_total_layers h = Raises AttributeError h.
Proof. intros Hnone. by rewrite read_total_layers_run, Hnone. Qed.

Lemma read_total_layers_without_material_witness :
  read_total_layers
    (mk_bpy (Some (Object.mk "Cube" "MESH" [None] 0)) [] (layer_stack_at (-1))
       [] [] [])
  = Raises AttributeError
      (mk_bpy (Some (Object.mk "Cube" "MESH" [None] 0)) []
         (layer_stack_at (-1)) [] [] []).
Proof. apply read_total_layers_without_material. reflexivity. Defined.

(** ** [get_layer_group_node] and [get_material_layer_node] *)

Lemma nodes_get_Some (nodes : list Node.t) (key : string) (n : Node.t) :
  nodes_get nodes key = Some n → Node.name n = key ∧ n ∈ nodes.
Proof.
  unfold nodes_get. intros Hfind. apply find_some in Hfind as [Hin Hname].
  apply bool_decide_eq_true in Hname. split; [done | by apply list_elem_of_In].
Qed.

Lemma get_layer_group_node_run (h : bpy) (o : Object.t) (i : Z) :
  context_active_object h = Some o →
  get_layer_group_node i h =
  match Object.active_material o with
  | Some m => Returns (format_layer_group_node_name (Material.name m) i) h
  | None => Raises AttributeError h
  end.
Proof.
  intros Ho. unfold get_layer_group_node, mbind, py_bind.
  rewrite (active_object_active_material_run h o Ho).
  by destruct (Object.active_material o).
Qed.

(** [get_layer_group_node] changes nothing.  With an active material it
    returns the material's name, an underscore and the index, so that two
    different indices give two different names; without an active object,
    and without an active material, it raises [AttributeError]. *)
Theorem get_layer_group_node_spec (h : bpy) (i j : Z) :
  match context_active_object h with
  | None => get_layer_group_node i h = Raises AttributeError h
  | Some o =>
      match Object.active_material o with
      | None => get_layer_group_node i h = Raises AttributeError h
      | Some m =>
          get_layer_group_node i h
            = Returns (Material.name m +:+ "_" +:+ str i) h ∧
          (i ≠ j → get_layer_group_node i h ≠ get_layer_group_node j h)
      end
  end.
Proof.
  destruct (context_active_object h) as [o|] eqn:Ho.
  - rewrite !(get_layer_group_node_run h o _ Ho).
    destruct (Object.active_material o) as [m|]; [| done].
    split; [done |]. intros Hij [= Heq].
    by apply format_layer_group_node_name_inj in Heq as [_ ?].
  - unfold get_layer_group_node, active_object_active_material, mbind,
      py_bind, get, attr_of. by rewrite Ho.
Qed.

Lemma get_material_layer_node_run (h : bpy) (o : Object.t) (m : Material.t)
  (layer_node_name : string) (layer_index : Z) (material_channel_name : string) :
  context_active_object h = Some o →
  Object.active_material o = Some m →
  layer_node_name ∈ recognized_kinds →
  get_material_layer_node layer_node_name layer_index material_channel_name h =
  match searched_nodes h m layer_node_name layer_index with
  | Some nodes =>
      Returns
        (nodes_get nodes
           (node_key layer_node_name layer_index material_channel_name)) h
  | None => Raises AttributeError h
  end.
Proof.
  intros Ho Hm Hkind. unfold get_material_layer_node, mbind at 1, py_bind at 1.
  rewrite (active_object_active_material_run h o Ho), Hm.
  unfold recognized_kinds in Hkind. unfold searched_nodes, node_key.
  repeat (apply elem_of_cons in Hkind as [-> | Hkind];
          [simpl; unfold mbind, py_bind, get, attr_of;
           first [done | by destruct (node_groups_get _ _)] |]).
  by apply elem_of_nil in Hkind.
Qed.

(** A node that [get_material_layer_node] returns is a node of the place
    searched (the material's tree for a layer node, the layer's node group
    otherwise), it bears the name asked for, the kind was one of the seven,
    and nothing has changed.  Where the name asked for has the material
    channel in it, the channel name is one of ASCII characters. *)
Theorem get_material_layer_node_found (h h' : bpy)
  (layer_node_name : string) (layer_index : Z) (material_channel_name : string)
  (n : Node.t) :
  (layer_node_name ∈ channel_kinds → ascii_only material_channel_name = true) →
  get_material_layer_node layer_node_name layer_index material_channel_name h
    = Returns (Some n) h' →
  h' = h ∧ layer_node_name ∈ recognized_kinds ∧
  Node.name n = node_key layer_node_name layer_index material_channel_name ∧
  ∃ o m nodes,
    context_active_object h = Some o ∧ Object.active_material o = Some m ∧
    searched_nodes h m layer_node_name layer_index = Some nodes ∧ n ∈ nodes.
Proof.
  intros _ Hget.
  destruct (context_active_object h) as [o|] eqn:Ho.
  2: { unfold get_material_layer_node, active_object_active_material, mbind,
         py_bind, get, attr_of in Hget. by rewrite Ho in Hget. }
  destruct (Object.active_material o) as [m|] eqn:Hm.
  2: { by rewrite (get_material_layer_node_run_active_object h o _ _ _ Ho Hm)
         in Hget. }
  destruct (decide (layer_node_name ∈ recognized_kinds)) as [Hkind | Hkind].
  2: { by rewrite (get_material_layer_node_unrecognized h o _ _ _ Ho Hkind)
         in Hget. }
  rewrite (get_material_layer_node_run h o m _ _ _ Ho Hm Hkind) in Hget.
  destruct (searched_nodes h m layer_node_name layer_index) as [nodes|] eqn:Hs;
    [| done].
  injection Hget as Hn <-. apply nodes_get_Some in Hn as [Hname Hin].
  split; [done |]. split; [done |]. split; [done |]. by exists o, m, nodes.
Qed.

Lemma get_material_layer_node_found_witness :
  get_material_layer_node "MIX" 3 "Color" mixing
    = Returns (Some color_mix_node) mixing ∧
  Node.name color_mix_node = "COLOR_MIX".
Proof.
  assert (get_material_layer_node "MIX" 3 "Color" mixing
          = Returns (Some color_mix_node) mixing) as Hget
    by (vm_compute; reflexivity).
  split; [exact Hget |].
  destruct (get_material_layer_node_found mixing mixing "MIX" 3 "Color"
              color_mix_node (λ _, eq_refl) Hget)
    as (_ & _ & Hname & _).
  exact Hname.
Defined.

Lemma upper_char_idemp (c : ascii) : upper_char (upper_char c) = upper_char c.
Proof. by destruct c as [[] [] [] [] [] [] [] []]. Qed.

Lemma upper_idemp (s : string) : upper (upper s) = upper s.
Proof.
  induction s as [|c s IH]; [done |]. simpl. by rewrite upper_char_idemp, IH.
Qed.

(** The material channel name is taken in upper case: for a channel name
    of ASCII characters, a call with the name and a call with the name in
    upper case do the same, so that the default ['Color'] and the channel
    ['COLOR'] stand for the same nodes. *)
Theorem get_material_layer_node_channel_upper (h : bpy)
  (layer_node_name : string) (layer_index : Z) (material_channel_name : string) :
  ascii_only material_channel_name = true →
  get_material_layer_node layer_node_name layer_index
    (upper material_channel_name) h
  = get_material_layer_node layer_node_name layer_index material_channel_name h.
Proof.
  intros _. unfold get_material_layer_node. by rewrite upper_idemp.
Qed.

Lemma get_material_layer_node_channel_upper_witness :
  get_material_layer_node "MIX" 3 "COLOR" mixing
  = get_material_layer_node "MIX" 3 "Color" mixing ∧
  get_material_layer_node "MIX" 3 "Color" mixing
  = Returns (Some color_mix_node) mixing.
Proof.
  split; [| vm_compute; reflexivity].
  exact (get_material_layer_node_channel_upper mixing "MIX" 3 "Color" eq_refl).
Defined.

(** ** [add_material_layer_slot] and the delete command *)

(** [add_material_layer_slot] raises nothing, and it takes the first free
    draw: when the draws to come begin with draws that are ids of slots and
    go on with one that is not, the call returns the selected index, the
    new slot has the id of that draw, and the draws after it are the ones
    still to come. *)
Theorem add_material_layer_slot_takes_first_free_draw (h : bpy) :
  (∀ e h', add_material_layer_slot h ≠ Raises e h') ∧
  (∀ skipped raw rest,
     random_draws h = skipped ++ raw :: rest →
     Forall (λ r, str (randrange 0 999999 r)
                    ∈ slot_ids (scene_matlayer_layers h)) skipped →
     str (randrange 0 999999 raw) ∉ slot_ids (scene_matlayer_layers h) →
     ∃ h', add_material_layer_slot h = Returns (selected h) h' ∧
           random_draws h' = rest ∧
           slot_ids (scene_matlayer_layers h')
             ≡ₚ slot_ids (scene_matlayer_layers h)
                  ++ [str (randrange 0 999999 raw)]).
Proof.
  split.
  - intros e h'. apply add_material_layer_slot_not_Raises.
  - intros skipped raw rest. apply add_material_layer_slot_takes_first_free.
Qed.

Lemma add_material_layer_slot_takes_first_free_draw_witness :
  ∃ h', add_material_layer_slot
          (scene_only [slot "4"; slot "8"] 1 [8; 4; 8; 15; 16])
        = Returns 1 h' ∧
        random_draws h' = [16] ∧
        slot_ids (scene_matlayer_layers h') ≡ₚ ["4"; "8"; "15"].
Proof.
  destruct (add_material_layer_slot_takes_first_free_draw
              (scene_only [slot "4"; slot "8"] 1 [8; 4; 8; 15; 16]))
    as [_ Htakes].
  apply (Htakes [8; 4; 8] 15 [16]).
  - reflexivity.
  - apply (bool_decide_unpack _). vm_compute. exact I.
  - apply (bool_decide_unpack _). vm_compute. exact I.
Defined.

Lemma collection_move_last_to (layers : list MATLAYER_layers.t)
  (x : MATLAYER_layers.t) (t : Z) :
  0 ≤ t ≤ len layers →
  collection_move (len (layers ++ [x]) - 1) t (layers ++ [x])
  = take (Z.to_nat t) layers ++ x :: drop (Z.to_nat t) layers.
Proof.
  unfold collection_move, len. rewrite length_app. simpl. intros Ht.
  case_bool_decide as Hguard.
  - replace (Z.to_nat (Z.of_nat (length layers + 1) - 1)) with (length layers)
      by lia.
    rewrite list_lookup_middle by done. rewrite delete_middle.
    by rewrite app_nil_r.
  - assert (Z.to_nat t = length layers) as -> by lia.
    by rewrite firstn_all, drop_all.
Qed.

Lemma add_material_layer_slot_inserts (h h' : bpy) (idx : Z) :
  add_material_layer_slot h = Returns idx h' →
  ∃ id,
    let layers := scene_matlayer_layers h in
    let t := if bool_decide (selected h < 0) then 0
             else Z.min (selected h + 1) (len layers) in
    (id ∉ slot_ids layers) ∧
    scene_matlayer_layers h'
      = take (Z.to_nat t) layers ++ slot id :: drop (Z.to_nat t) layers ∧
    MATLAYER_layer_stack.layer_index (scene_matlayer_layer_stack h') = Some t ∧
    len (scene_matlayer_layers h') = len layers + 1.
Proof.
  rewrite add_material_layer_slot_run.
  destruct (draw_unique_slot_id _ _) as [[id draws']|] eqn:Hdraw; [| done].
  intros [= <- <-]. exists id. simpl.
  split.
  { apply draw_unique_slot_id_Some in Hdraw as [Hfresh _].
    intros Hin. apply Hfresh. unfold collection_add, slot_ids.
    rewrite fmap_app. apply elem_of_app. by left. }
  unfold slot_added, collection_add. rewrite update_last_snoc.
  fold (selected h). unfold move_target.
  assert (len (scene_matlayer_layers h ++ [MATLAYER_layers.set_name id
            (MATLAYER_layers.mk "" false)]) = len (scene_matlayer_layers h) + 1)
    as Hlen by (unfold len; rewrite length_app; simpl; lia).
  rewrite Hlen.
  assert (0 ≤ len (scene_matlayer_layers h)) as Hnonneg by (unfold len; lia).
  assert ((if bool_decide (selected h < 0) then 0
           else Z.max 0 (Z.min (selected h + 1)
                           (len (scene_matlayer_layers h) + 1 - 1)))
          = (if bool_decide (selected h < 0) then 0
             else Z.min (selected h + 1) (len (scene_matlayer_layers h))))
    as -> by (case_bool_decide; lia).
  set (t := if bool_decide (selected h < 0) then 0
            else Z.min (selected h + 1) (len (scene_matlayer_layers h))).
  assert (0 ≤ t ≤ len (scene_matlayer_layers h)) as Ht
    by (unfold t; case_bool_decide; lia).
  rewrite <- Hlen. rewrite collection_move_last_to by done.
  split; [done |]. split; [done |].
  unfold len in *.
  rewrite !length_app, length_take, !length_cons, length_drop. simpl. lia.
Qed.

(** Where the new slot goes.  When [add_material_layer_slot] returns, the
    slots that were there keep their order and the new one, whose id none of
    them has, stands at position [t] among them: [t] is 0 without a
    selection, and otherwise the position after the selected one, or the end
    of the store when the selection lies beyond it.  [t] is what the
    function stores in [layer_index]; the store is one slot longer. *)
Theorem add_material_layer_slot_placement (h h' : bpy) (idx : Z) :
  add_material_layer_slot h = Returns idx h' →
  ∃ id,
    let layers := scene_matlayer_layers h in
    let t := if bool_decide (selected h < 0) then 0
             else Z.min (selected h + 1) (len layers) in
    (id ∉ slot_ids layers) ∧
    scene_matlayer_layers h'
      = take (Z.to_nat t) layers ++ slot id :: drop (Z.to_nat t) layers ∧
    MATLAYER_layer_stack.layer_index (scene_matlayer_layer_stack h') = Some t ∧
    len (scene_matlayer_layers h') = len layers + 1.
Proof. apply add_material_layer_slot_inserts. Qed.

Lemma add_material_layer_slot_placement_witness :
  ∃ h', add_material_layer_slot
          (scene_only [slot "A"; slot "B"; slot "C"] 0 [7]) = Returns 0 h' ∧
        scene_matlayer_layers h' = [slot "A"; slot "7"; slot "B"; slot "C"] ∧
        MATLAYER_layer_stack.layer_index (scene_matlayer_layer_stack h')
          = Some 1.
Proof.
  eexists. split; [vm_compute; reflexivity |].
  destruct (add_material_layer_slot_placement
              (scene_only [slot "A"; slot "B"; slot "C"] 0 [7]) _ 0 eq_refl)
    as (id & _ & _ & Hindex & _).
  split; [reflexivity | exact Hindex].
Defined.

(** What [add_material_layer_slot] leaves alone.  When it returns, its
    value is the selected index from before the call, which is also the
    selected index after it; the active object, the node groups and the
    reports are as before, and the draws left are the last of the draws
    there were. *)
Theorem add_material_layer_slot_frame (h h' : bpy) (idx : Z) :
  add_material_layer_slot h = Returns idx h' →
  idx = selected h ∧ selected h' = selected h ∧
  context_active_object h' = context_active_object h ∧
  data_node_groups h' = data_node_groups h ∧
  reports h' = reports h ∧
  ∃ used, used ≠ [] ∧ random_draws h = used ++ random_draws h'.
Proof.
  intros Hadd. pose proof Hadd as Hrun.
  rewrite add_material_layer_slot_run in Hrun.
  destruct (draw_unique_slot_id _ _) as [[id draws']|] eqn:Hdraw; [| done].
  injection Hrun as <- <-. simpl. repeat split.
  apply draw_unique_slot_id_Some in Hdraw as (_ & skipped & raw & -> & _).
  exists (skipped ++ [raw]). split; [by destruct skipped |].
  by rewrite <- app_assoc.
Qed.

Lemma add_material_layer_slot_frame_witness :
  ∃ h', add_material_layer_slot (editing "MESH" [] [slot "4"] 0)  = Diverges ∧
        add_material_layer_slot
          (set_random_draws [4; 8] (editing "MESH" [] [slot "4"] 0))
          = Returns 0 h' ∧
        selected h' = 0 ∧ random_draws h' = [].
Proof.
  eexists. split; [reflexivity |]. split; [vm_compute; reflexivity |].
  destruct (add_material_layer_slot_frame
              (set_random_draws [4; 8] (editing "MESH" [] [slot "4"] 0))
              _ 0 eq_refl) as (_ & Hsel & _).
  split; [exact Hsel | reflexivity].
Defined.

(** The delete command with a slot selected: that slot goes and the others
    keep their order, the store is one slot shorter, and the value stored
    in [layer_index] is the index before the selected one, or 0 for the
    first slot.  The selected index, the active object, the node groups,
    the draws and the reports are as before. *)
Theorem MATLAYER_OT_delete_layer_in_range (h : bpy) :
  0 ≤ selected h < len (scene_matlayer_layers h) →
  ∃ h', MATLAYER_OT_delete_layer_execute h = Returns FINISHED h' ∧
        scene_matlayer_layers h'
          = delete (Z.to_nat (selected h)) (scene_matlayer_layers h) ∧
        len (scene_matlayer_layers h') = len (scene_matlayer_layers h) - 1 ∧
        MATLAYER_layer_stack.layer_index (scene_matlayer_layer_stack h')
          = Some (Z.max (selected h - 1) 0) ∧
        selected h' = selected h ∧
        context_active_object h' = context_active_object h ∧
        data_node_groups h' = data_node_groups h ∧
        random_draws h' = random_draws h ∧
        reports h' = reports h.
Proof.
  intros Hsel. rewrite MATLAYER_OT_delete_layer_execute_run. eexists.
  split; [reflexivity |]. simpl.
  unfold collection_remove. rewrite bool_decide_eq_true_2 by done.
  assert (len (delete (Z.to_nat (selected h)) (scene_matlayer_layers h))
          = len (scene_matlayer_layers h) - 1) as Hlen.
  { unfold len in *. rewrite length_delete; [lia |].
    apply lookup_lt_is_Some. lia. }
  rewrite Hlen. repeat split. f_equal. lia.
Qed.

Lemma MATLAYER_OT_delete_layer_in_range_witness :
  ∃ h', MATLAYER_OT_delete_layer_execute
          (scene_only [slot "A"; slot "B"; slot "C"] 1 []) = Returns FINISHED h' ∧
        scene_matlayer_layers h' = [slot "A"; slot "C"] ∧
        MATLAYER_layer_stack.layer_index (scene_matlayer_layer_stack h')
          = Some 0.
Proof.
  destruct (MATLAYER_OT_delete_layer_in_range
              (scene_only [slot "A"; slot "B"; slot "C"] 1 []))
    as (h' & Hrun & Hlayers & _ & Hindex & _); [vm_compute; by split |].
  exists h'. split; [exact Hrun |]. split; [exact Hlayers | exact Hindex].
Defined.

(** ** [organize_layer_group_nodes] *)

Lemma active_nodes_active_tree (h : bpy) :
  active_nodes h = NodeTree.nodes <$> active_tree h.
Proof.
  unfold active_nodes, active_tree.
  destruct (context_active_object h) as [o|]; [| done]. simpl.
  by destruct (Object.active_material o).
Qed.

Lemma active_tree_map_active_node_tree (f : NodeTree.t → NodeTree.t) (h : bpy) :
  active_tree (map_active_node_tree f h) = f <$> active_tree h.
Proof.
  unfold active_tree, map_active_node_tree.
  destruct (context_active_object h) as [o|] eqn:Ho; [| by rewrite Ho].
  destruct (Object.active_material o) as [m|] eqn:Hm.
  - cbn. by rewrite (active_material_set_active_material o m _ Hm), Hm.
  - rewrite Ho. cbn. by rewrite Hm.
Qed.

Lemma map_active_node_tree_frame (f : NodeTree.t → NodeTree.t) (h : bpy) :
  scene_matlayer_layers (map_active_node_tree f h) = scene_matlayer_layers h ∧
  scene_matlayer_layer_stack (map_active_node_tree f h)
    = scene_matlayer_layer_stack h ∧
  data_node_groups (map_active_node_tree f h) = data_node_groups h ∧
  random_draws (map_active_node_tree f h) = random_draws h ∧
  reports (map_active_node_tree f h) = reports h.
Proof.
  unfold map_active_node_tree.
  destruct (context_active_object h) as [o|]; [| done].
  by destruct (Object.active_material o).
Qed.

Lemma organize_layer_group_nodes_run (h : bpy) (nodes : list Node.t) :
  active_nodes h = Some nodes →
  ∃ r, read_total_layers h = Returns r h ∧
       organize_layer_group_nodes h
       = Returns tt
           (map_active_node_tree
              (λ t, NodeTree.set_nodes (organized r (NodeTree.nodes t)) t) h).
Proof.
  intros Hnodes.
  destruct (read_total_layers_first_miss h nodes Hnodes) as (r & Hr & _).
  exists r. split; [done |].
  unfold organize_layer_group_nodes, mbind at 1, py_bind at 1.
  unfold active_nodes in Hnodes.
  destruct (context_active_object h) as [o|] eqn:Ho; [| done].
  rewrite (active_object_active_material_run h o Ho).
  unfold mbind, py_bind. by rewrite Hr.
Qed.

Lemma nodes_update_names (key : string) (f : Node.t → Node.t)
  (nodes : list Node.t) :
  (∀ n, Node.name (f n) = Node.name n) →
  Node.name <$> nodes_update key f nodes = Node.name <$> nodes.
Proof.
  intros Hf. induction nodes as [|n nodes IH]; [done |].
  cbn [nodes_update]. case_bool_decide; rewrite !fmap_cons;
    [by rewrite Hf | by rewrite IH].
Qed.

Lemma nodes_get_nodes_update (key key' : string) (f : Node.t → Node.t)
  (nodes : list Node.t) :
  (∀ n, Node.name (f n) = Node.name n) →
  nodes_get (nodes_update key f nodes) key'
  = if decide (key = key') then f <$> nodes_get nodes key'
    else nodes_get nodes key'.
Proof.
  intros Hf. unfold nodes_get. induction nodes as [|n nodes IH].
  - by case_decide.
  - simpl. case_bool_decide as Hkey; simpl.
    + rewrite Hf. case_decide as Hkk.
      * subst key'. by rewrite !bool_decide_eq_true_2.
      * by rewrite !bool_decide_eq_false_2 by congruence.
    + rewrite IH. case_decide as Hkk; [| done].
      subst key'. by rewrite bool_decide_eq_false_2.
Qed.

Lemma organize_step_names (nodes : list Node.t) (x i : Z) :
  Node.name <$> (organize_step (nodes, x) i).1 = Node.name <$> nodes.
Proof.
  unfold organize_step. destruct (nodes_get nodes (str i)); [| done].
  by apply nodes_update_names.
Qed.

Lemma organized_names (layer_count : Z) (nodes : list Node.t) :
  Node.name <$> organized layer_count nodes = Node.name <$> nodes.
Proof.
  unfold organized. generalize (-500). revert nodes.
  induction (seqZ 0 layer_count) as [|i l IH]; intros nodes x; [done |].
  cbn [foldl]. pose proof (organize_step_names nodes x i) as Hn.
  destruct (organize_step (nodes, x) i) as [nodes1 x1]. by rewrite IH.
Qed.

(** The count depends on the names of the nodes only. *)
Lemma read_total_layers_same_names (h h' : bpy) (nodes nodes' : list Node.t)
  (r : Z) :
  active_nodes h = Some nodes →
  active_nodes h' = Some nodes' →
  Node.name <$> nodes' = Node.name <$> nodes →
  read_total_layers h = Returns r h →
  read_total_layers h' = Returns r h'.
Proof.
  intros Hn Hn' Hnames. rewrite !read_total_layers_run, Hn, Hn'.
  assert (length nodes' = length nodes) as ->.
  { apply (f_equal length) in Hnames. by rewrite !length_fmap in Hnames. }
  rewrite (count_layer_nodes_same_hits _ nodes' nodes).
  - unfold of_loop. destruct (count_layer_nodes _ nodes 1); [| done].
    by intros [= ->].
  - intros k _. by rewrite !nodes_get_is_Some, Hnames.
Qed.

(** What [organize_layer_group_nodes] leaves alone.  Without an active
    material it raises [AttributeError] and changes nothing.  With one it
    returns; the nodes of the tree have the same names in the same order,
    the links, the slots, the layer stack state, the node groups and the
    reports are as before, and [read_total_layers] gives the same count. *)
Theorem organize_layer_group_nodes_frame (h : bpy) :
  match active_tree h with
  | None => organize_layer_group_nodes h = Raises AttributeError h
  | Some tree =>
      ∃ h' tree',
        organize_layer_group_nodes h = Returns tt h' ∧
        active_tree h' = Some tree' ∧
        Node.name <$> NodeTree.nodes tree' = Node.name <$> NodeTree.nodes tree ∧
        NodeTree.links tree' = NodeTree.links tree ∧
        scene_matlayer_layers h' = scene_matlayer_layers h ∧
        scene_matlayer_layer_stack h' = scene_matlayer_layer_stack h ∧
        data_node_groups h' = data_node_groups h ∧
        reports h' = reports h ∧
        ∃ r, read_total_layers h = Returns r h ∧
             read_total_layers h' = Returns r h'
  end.
Proof.
  destruct (active_tree h) as [tree|] eqn:Htree.
  - assert (active_nodes h = Some (NodeTree.nodes tree)) as Hnodes
      by (by rewrite active_nodes_active_tree, Htree).
    destruct (organize_layer_group_nodes_run h _ Hnodes) as (r & Hr & Hrun).
    eexists _, _. split; [exact Hrun |].
    split; [by rewrite active_tree_map_active_node_tree, Htree |].
    destruct (map_active_node_tree_frame
                (λ t, NodeTree.set_nodes (organized r (NodeTree.nodes t)) t) h)
      as (Hl & Hs & Hg & _ & Hrep).
    split; [apply organized_names |]. repeat (split; [done |]).
    exists r. split; [done |].
    apply (read_total_layers_same_names h _ (NodeTree.nodes tree)
             (organized r (NodeTree.nodes tree))); try done.
    + by rewrite active_nodes_active_tree, active_tree_map_active_node_tree,
        Htree.
    + apply organized_names.
  - unfold organize_layer_group_nodes, mbind at 1, py_bind at 1.
    unfold active_tree in Htree.
    destruct (context_active_object h) as [o|] eqn:Ho.
    + rewrite (active_object_active_material_run h o Ho).
      unfold mbind, py_bind.
      rewrite read_total_layers_run.
      assert (active_nodes h = None) as ->; [| done].
      unfold active_nodes. rewrite Ho. simpl in *.
      by destruct (Object.active_material o).
    + unfold active_object_active_material, mbind, py_bind, get, attr_of.
      by rewrite Ho.
Qed.

Lemma placed_name (x : Z) (n : Node.t) : Node.name (placed x n) = Node.name n.
Proof. done. Qed.

(** The state of the loop of [organize_layer_group_nodes] after the rounds
    for the indices below [j]. *)
Lemma organize_loop_invariant (nodes : list Node.t) (r : Z) (j : nat) :
  (∀ k, 1 ≤ k < r → is_Some (nodes_get nodes (str k))) →
  Z.of_nat j ≤ r →
  ∃ nodes_j,
    foldl organize_step (nodes, -500) (seqZ 0 (Z.of_nat j))
    = (nodes_j, -500 * (Z.max (Z.of_nat j) (first_layer nodes)
                        + 1 - first_layer nodes)) ∧
    (∀ k n, 0 ≤ k < Z.of_nat j → nodes_get nodes (str k) = Some n →
       nodes_get nodes_j (str k)
       = Some (placed (-500 * (k + 1 - first_layer nodes)) n)) ∧
    (∀ key, (∀ k, 0 ≤ k < Z.of_nat j → key ≠ str k) →
       nodes_get nodes_j key = nodes_get nodes key).
Proof.
  intros Hhits. induction j as [|j IH]; intros Hj.
  - exists nodes. split; [| split].
    + unfold first_layer. simpl. f_equal. destruct (nodes_get nodes "0"); lia.
    + intros k n Hk. lia.
    + done.
  - destruct IH as (nodes_j & Hfold & Hplaced & Hother); [lia |].
    rewrite seqZ_S, foldl_snoc, Hfold. rewrite Z.add_0_l.
    unfold organize_step.
    assert (nodes_get nodes_j (str (Z.of_nat j))
            = nodes_get nodes (str (Z.of_nat j))) as Hget.
    { apply Hother. intros k Hk Heq. apply (inj pretty) in Heq. lia. }
    rewrite Hget.
    destruct (nodes_get nodes (str (Z.of_nat j))) as [n|] eqn:Hn.
    + assert (first_layer nodes ≤ Z.of_nat j) as Hfirst.
      { unfold first_layer. destruct (nodes_get nodes "0") eqn:H0; [lia |].
        destruct j; [| lia]. change (str (Z.of_nat 0)) with "0"%string in Hn.
        congruence. }
      assert (0 ≤ first_layer nodes ≤ 1) as Hrange
        by (unfold first_layer; destruct (nodes_get nodes "0"); lia).
      eexists. split; [| split].
      * f_equal. lia.
      * intros k n' Hk Hn'.
        rewrite nodes_get_nodes_update by done.
        case_decide as Hkey.
        -- apply (inj pretty) in Hkey as <-. rewrite Hget, Hn in *.
           injection Hn' as <-. simpl. unfold placed. do 3 f_equal. lia.
        -- apply Hplaced; [| done].
           assert (k ≠ Z.of_nat j) by congruence. lia.
      * intros key Hkey. rewrite nodes_get_nodes_update by done.
        rewrite decide_False by (intros <-; apply (Hkey (Z.of_nat j)); [lia | done]).
        apply Hother. intros k Hk. apply Hkey. lia.
    + assert (j = 0%nat ∧ first_layer nodes = 1) as [-> Hfirst].
      { destruct j.
        - split; [done |]. unfold first_layer.
          change (str (Z.of_nat 0)) with "0"%string in Hn. by rewrite Hn.
        - destruct (Hhits (Z.of_nat (S j))) as [? Hsome]; [lia | congruence]. }
      exists nodes_j. split; [| split].
      * f_equal. rewrite Hfirst. lia.
      * intros k n' Hk Hn'. assert (k = 0) as -> by lia.
        change (str 0) with (str (Z.of_nat 0)) in Hn'. congruence.
      * intros key Hkey. apply Hother. intros k Hk. lia.
Qed.

(** The layout.  With an active material [organize_layer_group_nodes]
    gives every layer node below the count the width 300 and a place on the
    horizontal axis: 500 to the left of the node of the index before,
    starting at -500 with the lowest layer index there is (0, or 1 when the
    tree has no node "0").  Nodes of other names are as they were. *)
Theorem organize_layer_group_nodes_layout (h : bpy) (nodes : list Node.t) :
  active_nodes h = Some nodes →
  ∃ r h' nodes',
    read_total_layers h = Returns r h ∧
    organize_layer_group_nodes h = Returns tt h' ∧
    active_nodes h' = Some nodes' ∧
    (∀ k n, 0 ≤ k < r → nodes_get nodes (str k) = Some n →
       nodes_get nodes' (str k)
       = Some (Node.set_location (-500 * (k + 1 - first_layer nodes), 0)
                 (Node.set_width 300 n))) ∧
    (∀ key, (∀ k, 0 ≤ k < r → key ≠ str k) →
       nodes_get nodes' key = nodes_get nodes key).
Proof.
  intros Hnodes.
  destruct (read_total_layers_first_miss h nodes Hnodes)
    as (r & Hr & Hr1 & _ & Hhits).
  destruct (organize_layer_group_nodes_run h nodes Hnodes) as (r' & Hr' & Hrun).
  assert (r' = r) as -> by congruence.
  destruct (organize_loop_invariant nodes r (Z.to_nat r) Hhits)
    as (nodes' & Hfold & Hplaced & Hother); [lia |].
  rewrite Z2Nat.id in * by lia.
  eexists r, _, nodes'. split; [done |]. split; [exact Hrun |].
  split; [| by split].
  rewrite active_nodes_active_tree, active_tree_map_active_node_tree.
  rewrite active_nodes_active_tree in Hnodes.
  destruct (active_tree h) as [tree|]; [| done].
  injection Hnodes as <-. simpl. unfold organized. by rewrite Hfold.
Qed.

Lemma organize_layer_group_nodes_layout_witness :
  ∃ h', organize_layer_group_nodes
          (editing "MESH" [layer_group_node "1"; principled_bsdf_node;
                           layer_group_node "0"] [] (-1)) = Returns tt h' ∧
        active_nodes h'
        = Some [placed (-1000) (layer_group_node "1"); principled_bsdf_node;
                placed (-500) (layer_group_node "0")].
Proof.
  destruct (organize_layer_group_nodes_layout
              (editing "MESH" [layer_group_node "1"; principled_bsdf_node;
                               layer_group_node "0"] [] (-1)) _ eq_refl)
    as (r & h' & nodes' & _ & Hrun & _).
  exists h'. split; [exact Hrun |].
  revert Hrun. vm_compute. by intros [= <-].
Defined.

(** ** [connect_layer_group_nodes] *)

Lemma links_new_fold (new : list NodeLink.t) (kept done : list NodeLink.t) :
  NoDup (NodeLink.to_socket <$> (done ++ new)) →
  foldl (λ acc l, links_new (NodeLink.from_socket l) (NodeLink.to_socket l) acc)
    (kept ++ done) new
  = filter (λ l, NodeLink.to_socket l ∉ NodeLink.to_socket <$> new) kept
      ++ done ++ new.
Proof.
  revert kept done. induction new as [|l new IH]; intros kept done Hnodup.
  - simpl. rewrite app_nil_r. f_equal. symmetry. apply filter_all.
    intros x _. apply not_elem_of_nil.
  - cbn [foldl]. unfold links_new at 2. rewrite filter_app.
    assert (filter (λ x, NodeLink.to_socket x ≠ NodeLink.to_socket l) done = done)
      as ->.
    { apply filter_all. intros x Hx Heq.
      rewrite fmap_app in Hnodup. apply NoDup_app in Hnodup as (_ & Hdisj & _).
      apply (Hdisj (NodeLink.to_socket x)).
      - apply list_elem_of_fmap. by exists x.
      - rewrite Heq. rewrite fmap_cons. by left. }
    destruct l as [o i]. simpl. rewrite <- app_assoc.
    rewrite (IH _ (done ++ [NodeLink.mk o i])).
    + rewrite list_filter_filter, <- app_assoc. f_equal.
      apply list_filter_iff. intros x.
      change (list_fmap NodeLink.t NodeSocket.t NodeLink.to_socket new)
        with (NodeLink.to_socket <$> new).
      rewrite not_elem_of_cons. tauto.
    + by rewrite <- app_assoc.
Qed.

Lemma link_run (h : bpy) (from_node to_node : Node.t) (output input : string) :
  output ∈ Node.outputs from_node →
  input ∈ Node.inputs to_node →
  link (Some from_node) output (Some to_node) input h
  = Returns tt
      (map_active_node_tree
         (λ t, NodeTree.set_links
                 (links_new (NodeSocket.mk (Node.name from_node) output)
                    (NodeSocket.mk (Node.name to_node) input)
                    (NodeTree.links t)) t) h).
Proof.
  intros Hout Hin. unfold link, mbind, py_bind, attr_of, sockets_get. simpl.
  by rewrite !bool_decide_eq_true_2 by done.
Qed.

Lemma active_tree_Some (h : bpy) (tree : NodeTree.t) :
  active_tree h = Some tree →
  ∃ o m, context_active_object h = Some o ∧
         Object.active_material o = Some m ∧ Material.node_tree m = tree.
Proof.
  unfold active_tree. destruct (context_active_object h) as [o|]; [| done].
  simpl. destruct (Object.active_material o) as [m|] eqn:Hm; [| done].
  intros [= <-]. by exists o, m.
Qed.

Lemma connected_fold (links : list NodeLink.t) :
  foldl (λ acc l, links_new (NodeLink.from_socket l) (NodeLink.to_socket l) acc)
    links channel_links
  = connected links.
Proof.
  rewrite <- (app_nil_r links) at 1. rewrite links_new_fold; [done |].
  apply (bool_decide_unpack _). vm_compute. exact I.
Qed.

Lemma connect_layer_group_nodes_run (h : bpy) (tree : NodeTree.t) :
  active_tree h = Some tree →
  connectable (NodeTree.nodes tree) →
  connect_layer_group_nodes h
  = Returns tt
      (map_active_node_tree
         (λ t, NodeTree.set_links (connected (NodeTree.links t)) t) h).
Proof.
  intros Htree (n0 & nb & nm & H0 & Hb & Hm & Hout & Hinb & Hinm).
  destruct (active_tree_Some h tree Htree) as (o & m & Ho & Hmat & <-).
  assert (active_nodes h = Some (NodeTree.nodes (Material.node_tree m)))
    as Hnodes by (by rewrite active_nodes_active_tree, Htree).
  destruct (read_total_layers_first_miss h _ Hnodes) as (r & Hr & _).
  apply nodes_get_Some in H0 as H0n. destruct H0n as [Hname0 _].
  apply nodes_get_Some in Hb as Hbn. destruct Hbn as [Hnameb _].
  apply nodes_get_Some in Hm as Hmn. destruct Hmn as [Hnamem _].
  unfold connect_layer_group_nodes, mbind at 1, py_bind at 1. rewrite Hr.
  unfold mbind at 1, py_bind at 1.
  rewrite (active_object_active_material_run h o Ho), Hmat.
  unfold mbind at 1, py_bind at 1. simpl attr_of. unfold mret at 1, py_ret at 1.
  unfold mbind at 1, py_bind at 1.
  rewrite (get_material_layer_node_LAYER h o m 0 "Color" Ho Hmat).
  change (str 0) with "0"%string. rewrite H0, Hb, Hm.
  assert (∀ x, x ∈ channel_outputs → x ∈ Node.outputs n0) as Hout' by done.
  repeat (unfold mbind at 1, py_bind at 1;
          rewrite link_run
            by first [ apply Hout'; apply (bool_decide_unpack _); vm_compute; exact I
                     | apply Hinb; apply (bool_decide_unpack _); vm_compute; exact I
                     | apply Hinm; apply (bool_decide_unpack _); vm_compute; exact I ]).
  rewrite link_run
    by first [ apply Hout'; apply (bool_decide_unpack _); vm_compute; exact I
             | apply Hinm; apply (bool_decide_unpack _); vm_compute; exact I ].
  rewrite !map_active_node_tree_twice. f_equal.
  apply map_active_node_tree_ext. intros t.
  rewrite <- connected_fold, Hname0, Hnameb, Hnamem. reflexivity.
Qed.

Lemma connected_idemp (links : list NodeLink.t) :
  connected (connected links) = connected links.
Proof.
  unfold connected. rewrite filter_app, list_filter_filter_l by done.
  assert (filter (λ l, NodeLink.to_socket l
                         ∉ NodeLink.to_socket <$> channel_links) channel_links
          = []) as -> by (by vm_compute).
  by rewrite app_nil_r.
Qed.

(** The links after a call that finds its nodes.  When the tree of the
    active material has the layer node "0", the shader node and the normal
    and height mix node, with the sockets asked for, then
    [connect_layer_group_nodes] returns, and the links of the tree are then
    the links that ended at none of the nine inputs, followed by the nine
    links from the channels of layer 0: each of the nine is there, and a
    link that ended elsewhere is kept.  The nodes, the slots, the layer
    stack state and the node groups are as before. *)
Theorem connect_layer_group_nodes_connects (h : bpy) (tree : NodeTree.t) :
  active_tree h = Some tree →
  connectable (NodeTree.nodes tree) →
  ∃ h',
    connect_layer_group_nodes h = Returns tt h' ∧
    active_tree h'
      = Some (NodeTree.set_links (connected (NodeTree.links tree)) tree) ∧
    (∀ l, l ∈ channel_links → l ∈ connected (NodeTree.links tree)) ∧
    (∀ l, l ∈ NodeTree.links tree →
          NodeLink.to_socket l ∉ NodeLink.to_socket <$> channel_links →
          l ∈ connected (NodeTree.links tree)) ∧
    (∀ l, l ∈ connected (NodeTree.links tree) →
          l ∈ channel_links ∨ l ∈ NodeTree.links tree) ∧
    scene_matlayer_layers h' = scene_matlayer_layers h ∧
    scene_matlayer_layer_stack h' = scene_matlayer_layer_stack h ∧
    data_node_groups h' = data_node_groups h.
Proof.
  intros Htree Hconn. eexists.
  split; [by apply (connect_layer_group_nodes_run h tree) |].
  split; [by rewrite active_tree_map_active_node_tree, Htree |].
  destruct (map_active_node_tree_frame
              (λ t, NodeTree.set_links (connected (NodeTree.links t)) t) h)
    as (Hl & Hs & Hg & _).
  unfold connected.
  split; [intros l Hl'; apply elem_of_app; by right |].
  split; [intros l Hl' Hto; apply elem_of_app; left;
          by apply list_elem_of_filter |].
  split; [| done].
  intros l [Hold | Hnew]%elem_of_app; [right | by left].
  by apply list_elem_of_filter in Hold as [_ ?].
Qed.

Lemma connect_layer_group_nodes_connects_witness :
  ∃ h', connect_layer_group_nodes
          (editing "MESH" [layer_group_node "0"; principled_bsdf_node;
                           normal_height_mix_node] [] (-1)) = Returns tt h' ∧
        active_links h' = Some channel_links.
Proof.
  destruct (connect_layer_group_nodes_connects
              (editing "MESH" [layer_group_node "0"; principled_bsdf_node;
                               normal_height_mix_node] [] (-1)) _ eq_refl)
    as (h' & Hrun & _).
  { exists (layer_group_node "0"), principled_bsdf_node, normal_height_mix_node.
    repeat split; try reflexivity;
      intros x Hx; revert Hx; apply Forall_forall;
      repeat constructor; apply (bool_decide_unpack _); vm_compute; exact I. }
  exists h'. split; [exact Hrun |].
  revert Hrun. vm_compute. by intros [= <-].
Defined.

(** Connecting twice is connecting once: under the same condition, a
    second call of [connect_layer_group_nodes] right after the first leaves
    the state that the first call made. *)
Theorem connect_layer_group_nodes_twice (h : bpy) (tree : NodeTree.t) :
  active_tree h = Some tree →
  connectable (NodeTree.nodes tree) →
  (connect_layer_group_nodes;; connect_layer_group_nodes) h
  = connect_layer_group_nodes h.
Proof.
  intros Htree Hconn. unfold mbind, py_bind.
  rewrite (connect_layer_group_nodes_run h tree Htree Hconn).
  rewrite (connect_layer_group_nodes_run _
             (NodeTree.set_links (connected (NodeTree.links tree)) tree)).
  - rewrite map_active_node_tree_twice. f_equal.
    apply map_active_node_tree_ext. intros t. unfold compose.
    destruct t; simpl. unfold NodeTree.set_links. simpl.
    by rewrite connected_idemp.
  - by rewrite active_tree_map_active_node_tree, Htree.
  - done.
Qed.

Lemma connect_layer_group_nodes_twice_witness :
  (connect_layer_group_nodes;; connect_layer_group_nodes)
    (editing "MESH" [layer_group_node "0"; principled_bsdf_node;
                     normal_height_mix_node] [] (-1))
  = connect_layer_group_nodes
      (editing "MESH" [layer_group_node "0"; principled_bsdf_node;
                       normal_height_mix_node] [] (-1)).
Proof.
  apply (connect_layer_group_nodes_twice _
           (Material.node_tree
              (material_of [layer_group_node "0"; principled_bsdf_node;
                            normal_height_mix_node]))); [reflexivity |].
  exists (layer_group_node "0"), principled_bsdf_node, normal_height_mix_node.
  repeat split; try reflexivity;
    intros x Hx; revert Hx; apply Forall_forall;
    repeat constructor; apply (bool_decide_unpack _); vm_compute; exact I.
Defined.

(** ** The commands and the slot store *)

Lemma store_untouched_refl (h : bpy) : store_untouched h h.
Proof. by split. Qed.

Lemma store_untouched_trans (h1 h2 h3 : bpy) :
  store_untouched h1 h2 → store_untouched h2 h3 → store_untouched h1 h3.
Proof. intros [? ?] [? ?]. split; congruence. Qed.

Lemma keeps_store_bind {A B : Type} (m : py A) (f : A → py B) :
  keeps_store m → (∀ a, keeps_store (f a)) → keeps_store (m ≫= f).
Proof.
  intros Hm Hf h. unfold mbind, py_bind. specialize (Hm h).
  destruct (m h) as [a h1|e h1|]; simpl in *; [| done..].
  specialize (Hf a h1). destruct (f a h1); simpl in *; try done;
    by eapply store_untouched_trans.
Qed.

Lemma keeps_store_reads_only {A : Type} (m : py A) :
  reads_only m → keeps_store m.
Proof.
  intros Hm h. specialize (Hm h).
  destruct (m h); simpl; subst; try done; apply store_untouched_refl.
Qed.

Lemma keeps_store_only_links {A : Type} (m : py A) :
  only_links m → keeps_store m.
Proof.
  intros Hm h. specialize (Hm h).
  destruct (m h); simpl; try done;
    apply without_links_frame in Hm as (? & ? & _); by split.
Qed.

Lemma keeps_store_modify (f : bpy → bpy) :
  (∀ h, store_untouched h (f h)) → keeps_store (modify f).
Proof. intros Hf h. apply Hf. Qed.

Lemma keeps_store_modify_active_node_tree (f : NodeTree.t → NodeTree.t) :
  keeps_store (modify_active_node_tree f).
Proof.
  apply keeps_store_modify. intros h.
  destruct (map_active_node_tree_frame f h) as (? & ? & _). by split.
Qed.

Lemma keeps_store_organize_layer_group_nodes :
  keeps_store organize_layer_group_nodes.
Proof.
  unfold organize_layer_group_nodes.
  apply keeps_store_bind;
    [apply keeps_store_reads_only, reads_only_active_object_active_material |].
  intros _.
  apply keeps_store_bind;
    [apply keeps_store_reads_only, reads_only_read_total_layers |].
  intros r. apply keeps_store_modify_active_node_tree.
Qed.

Lemma adds_at_most_once_keeps {A : Type} (m : py A) :
  keeps_store m → adds_at_most_once m.
Proof.
  intros Hm h. specialize (Hm h). destruct (state_after (m h)); [by left | done].
Qed.

Lemma adds_at_most_once_bind {A B : Type} (m : py A) (f : A → py B) :
  keeps_store m → (∀ a, adds_at_most_once (f a)) → adds_at_most_once (m ≫= f).
Proof.
  intros Hm Hf h. unfold mbind, py_bind. specialize (Hm h).
  destruct (m h) as [a h1|e h1|]; simpl in *; [| by left | done].
  specialize (Hf a h1). destruct (state_after (f a h1)) as [h'|]; [| done].
  destruct Hf as [Hkept | (h2 & h3 & idx & H12 & Hadd & H3)].
  - left. by eapply store_untouched_trans.
  - right. exists h2, h3, idx. split; [| done].
    by eapply store_untouched_trans.
Qed.

Lemma adds_at_most_once_add {B : Type} (f : Z → py B) :
  (∀ idx, keeps_store (f idx)) →
  adds_at_most_once (add_material_layer_slot ≫= f).
Proof.
  intros Hf h. unfold mbind, py_bind.
  destruct (add_material_layer_slot h) as [idx h1|e h1|] eqn:Hadd; simpl.
  - specialize (Hf idx h1). destruct (state_after (f idx h1)) as [h'|]; [| done].
    right. exists h, h1, idx. split; [apply store_untouched_refl | done].
  - by apply add_material_layer_slot_not_Raises in Hadd.
  - done.
Qed.

Lemma adds_at_most_once_add_material_layer (utils : blender_addon_utils) :
  adds_at_most_once (MATLAYER_OT_add_material_layer_execute utils).
Proof.
  assert (∀ name, keeps_store (call_append_material utils name)) as Hmat.
  { intros name h. unfold call_append_material, mbind, py_bind, get.
    by destruct (append_material utils name (data_node_groups h)). }
  assert (∀ name b, keeps_store (call_append_node_group utils name b)) as Hgrp.
  { intros name b h. unfold call_append_node_group, mbind, py_bind, get.
    by destruct (append_node_group utils name b (data_node_groups h)). }
  assert (∀ f, keeps_store (modify_active_object f)) as Hobj.
  { intros f. by apply keeps_store_modify. }
  unfold MATLAYER_OT_add_material_layer_execute.
  apply adds_at_most_once_bind;
    [apply keeps_store_reads_only, reads_only_get |]. intros h0.
  apply adds_at_most_once_bind; [by apply keeps_store_modify |]. intros _.
  apply adds_at_most_once_bind;
    [apply keeps_store_reads_only, reads_only_attr_of |]. intros obj.
  case_bool_decide.
  { apply adds_at_most_once_keeps.
    apply keeps_store_bind; [by apply keeps_store_modify |]. intros _.
    apply keeps_store_reads_only, reads_only_ret. }
  apply adds_at_most_once_bind.
  { case_bool_decide.
    - apply keeps_store_bind; [apply Hmat |]. intros mat.
      apply keeps_store_bind;
        [apply keeps_store_reads_only, reads_only_attr_of |]. intros mat'.
      apply Hobj.
    - apply keeps_store_bind.
      { destruct (Object.material_slots obj !! Object.active_material_index obj);
          apply keeps_store_reads_only;
          [apply reads_only_ret | apply reads_only_raise]. }
      intros [mat|]; [apply keeps_store_reads_only, reads_only_ret |].
      apply keeps_store_bind; [apply Hmat |]. intros mat.
      apply keeps_store_bind;
        [apply keeps_store_reads_only, reads_only_attr_of |]. intros mat'.
      apply Hobj. }
  intros _. apply adds_at_most_once_add. intros idx.
  apply keeps_store_bind;
    [apply keeps_store_reads_only, reads_only_active_object_active_material |].
  intros am.
  apply keeps_store_bind; [apply Hgrp |]. intros g.
  apply keeps_store_bind;
    [apply keeps_store_reads_only, reads_only_attr_of |]. intros am'.
  apply keeps_store_bind;
    [apply keeps_store_reads_only, reads_only_attr_of |]. intros g'.
  apply keeps_store_bind; [apply keeps_store_reads_only, reads_only_get |].
  intros h1.
  apply keeps_store_bind; [by apply keeps_store_modify |]. intros _.
  apply keeps_store_bind; [apply keeps_store_modify_active_node_tree |].
  intros _.
  apply keeps_store_bind; [apply keeps_store_modify_active_node_tree |].
  intros _.
  apply keeps_store_bind; [apply keeps_store_organize_layer_group_nodes |].
  intros _.
  apply keeps_store_bind;
    [apply keeps_store_only_links, only_links_connect_layer_group_nodes |].
  intros _. apply keeps_store_reads_only, reads_only_ret.
Qed.

Lemma slot_ids_inserted (layers : list MATLAYER_layers.t) (id : string) (t : nat) :
  slot_ids (take t layers ++ slot id :: drop t layers) ≡ₚ id :: slot_ids layers.
Proof.
  unfold slot_ids. rewrite fmap_app, fmap_cons. simpl.
  rewrite <- Permutation_middle. constructor.
  by rewrite <- fmap_app, take_drop.
Qed.

Lemma MATLAYER_OT_add_material_layer_effect (utils : blender_addon_utils)
  (h h' : bpy) :
  state_after (MATLAYER_OT_add_material_layer_execute utils h) = Some h' →
  selected h' = selected h ∧
  (scene_matlayer_layers h' = scene_matlayer_layers h ∨
   ∃ id t, (id ∉ slot_ids (scene_matlayer_layers h)) ∧
           scene_matlayer_layers h'
           = take t (scene_matlayer_layers h)
               ++ slot id :: drop t (scene_matlayer_layers h)).
Proof.
  intros Hafter.
  pose proof (adds_at_most_once_add_material_layer utils h) as Hadd.
  rewrite Hafter in Hadd.
  destruct Hadd as [[Hl Hs] | (h1 & h2 & idx & [Hl1 Hs1] & Hadd & [Hl2 Hs2])].
  - unfold selected. rewrite Hs. split; [done | by left].
  - pose proof Hadd as Hins.
    apply add_material_layer_slot_inserts in Hins as (id & Hfresh & Hlayers & _).
    apply add_material_layer_slot_Returns in Hadd as (_ & _ & _ & _ & _ & _ & _ & _ & Hsel).
    split.
    + unfold selected in *. rewrite Hs2, Hsel. by rewrite Hs1.
    + right. eexists id, _. rewrite Hl2, Hlayers, Hl1. by rewrite Hl1 in Hfresh.
Qed.

(** The Add Material Layer command and the slot store, for every library of
    templates and however the command ends, also when it ends in an
    exception: the selected index is what it was, and the store is either
    what it was or has one slot more, whose id no other slot has, with the
    other slots in their order. *)
Theorem MATLAYER_OT_add_material_layer_adds_one_slot
  (utils : blender_addon_utils) (h h' : bpy) :
  state_after (MATLAYER_OT_add_material_layer_execute utils h) = Some h' →
  selected h' = selected h ∧
  (scene_matlayer_layers h' = scene_matlayer_layers h ∨
   ∃ id t, (id ∉ slot_ids (scene_matlayer_layers h)) ∧
           scene_matlayer_layers h'
           = take t (scene_matlayer_layers h)
               ++ slot id :: drop t (scene_matlayer_layers h)).
Proof. apply MATLAYER_OT_add_material_layer_effect. Qed.

Lemma MATLAYER_OT_add_material_layer_adds_one_slot_witness :
  ∃ h', MATLAYER_OT_add_material_layer_execute template_library
          (mk_bpy (Some (Object.mk "Cube" "MESH" [] 0)) [slot "A"]
             (layer_stack_at (-1)) [] [5] [])
        = Raises AttributeError h' ∧
        selected h' = -1 ∧
        scene_matlayer_layers h' = [slot "5"; slot "A"].
Proof.
  eexists. split; [vm_compute; reflexivity |].
  match goal with
  | |- selected ?x = _ ∧ _ =>
      destruct (MATLAYER_OT_add_material_layer_adds_one_slot template_library
                  (mk_bpy (Some (Object.mk "Cube" "MESH" [] 0)) [slot "A"]
                     (layer_stack_at (-1)) [] [5] []) x) as [Hsel _];
        [vm_compute; reflexivity |]
  end.
  split; [exact Hsel | reflexivity].
Defined.

Lemma execute_store_effect (utils : blender_addon_utils) (c : layer_command)
  (h h' : bpy) :
  state_after (execute utils c h) = Some h' →
  selected h' = selected h ∧
  (NoDup (slot_ids (scene_matlayer_layers h)) →
   NoDup (slot_ids (scene_matlayer_layers h'))) ∧
  len (scene_matlayer_layers h) - 1 ≤ len (scene_matlayer_layers h')
    ≤ len (scene_matlayer_layers h) + 1.
Proof.
  destruct c; unfold execute.
  - intros Hafter.
    apply MATLAYER_OT_add_material_layer_effect in Hafter
      as (Hsel & [-> | (id & t & Hfresh & ->)]).
    + split; [done |]. split; [done | lia].
    + split; [done |]. split.
      * intros Hnodup. rewrite slot_ids_inserted. by apply NoDup_cons.
      * unfold len. rewrite length_app, length_cons.
        pose proof (length_app (take t (scene_matlayer_layers h))
                      (drop t (scene_matlayer_layers h))) as Hlen.
        rewrite take_drop in Hlen. lia.
  - intros [= <-]. split; [done |]. split; [done | lia].
  - intros [= <-]. split; [done |]. split; [done | lia].
  - rewrite MATLAYER_OT_delete_layer_execute_run. intros [= <-]. simpl.
    split; [done |]. unfold collection_remove. case_bool_decide.
    + split.
      * intros Hnodup. unfold slot_ids. rewrite list_fmap_delete.
        eapply sublist_NoDup; [exact Hnodup | apply sublist_delete].
      * unfold len in *. rewrite length_delete; [lia |].
        apply lookup_lt_is_Some. lia.
    + split; [done | lia].
  - intros [= <-]. split; [done |]. split; [done | lia].
  - intros [= <-]. split; [done |]. split; [done | lia].
Qed.

(** The commands in any order and number, each run on the state that the
    one before left: none of them ever changes the selected index; slot ids
    that are pairwise distinct stay so; and the length of the store moves by
    one at most with each command. *)
Theorem run_commands_invariants (utils : blender_addon_utils)
  (cs : list layer_command) (h h' : bpy) :
  run_commands utils cs h = Some h' →
  selected h' = selected h ∧
  (NoDup (slot_ids (scene_matlayer_layers h)) →
   NoDup (slot_ids (scene_matlayer_layers h'))) ∧
  len (scene_matlayer_layers h) - len cs ≤ len (scene_matlayer_layers h')
    ≤ len (scene_matlayer_layers h) + len cs.
Proof.
  revert h. induction cs as [|c cs IH]; intros h; simpl.
  - intros [= <-]. split; [done |]. split; [done |]. unfold len. simpl. lia.
  - destruct (state_after (execute utils c h)) as [h1|] eqn:Hc; [| done].
    intros Hrest. apply execute_store_effect in Hc as (Hsel1 & Hnodup1 & Hlen1).
    apply IH in Hrest as (Hsel & Hnodup & Hlen).
    split; [congruence |]. split; [tauto |].
    unfold len in *. simpl. lia.
Qed.

Lemma run_commands_invariants_witness :
  ∃ h', run_commands template_library
          [add_material_layer; delete_layer; move_material_layer "UP";
           add_material_layer; duplicate_layer]
          (mk_bpy (Some (Object.mk "Cube" "MESH" [] 0)) [slot "A"; slot "B"]
             (layer_stack_at 1) [] [5; 5; 6] []) = Some h' ∧
        selected h' = 1 ∧
        NoDup (slot_ids (scene_matlayer_layers h')).
Proof.
  eexists. split; [vm_compute; reflexivity |].
  match goal with
  | |- selected ?x = _ ∧ _ =>
      destruct (run_commands_invariants template_library
                  [add_material_layer; delete_layer; move_material_layer "UP";
                   add_material_layer; duplicate_layer]
                  (mk_bpy (Some (Object.mk "Cube" "MESH" [] 0))
                     [slot "A"; slot "B"] (layer_stack_at 1) [] [5; 5; 6] []) x)
        as (Hsel & Hnodup & _); [vm_compute; reflexivity |]
  end.
  split; [exact Hsel |]. apply Hnodup.
  apply (bool_decide_unpack _). vm_compute. exact I.
Defined.

Lemma same_but_layout_refl (n : Node.t) : same_but_layout n n.
Proof. done. Qed.

Lemma same_but_layout_trans (n1 n2 n3 : Node.t) :
  same_but_layout n1 n2 → same_but_layout n2 n3 → same_but_layout n1 n3.
Proof. unfold same_but_layout. congruence. Qed.

Lemma nodes_update_same_but_layout (key : string) (x : Z) (nodes : list Node.t) :
  Forall2 same_but_layout nodes
    (nodes_update key
       (λ n, Node.set_location (x, 0) (Node.set_width 300 n)) nodes).
Proof.
  induction nodes as [|n nodes IH]; [constructor |].
  cbn [nodes_update]. case_bool_decide.
  - constructor; [done |]. apply Forall2_same_length_lookup.
    split; [done |]. intros i a b Ha Hb. rewrite Ha in Hb. by injection Hb as ->.
  - constructor; [done | apply IH].
Qed.

Lemma Forall2_same_but_layout_refl (nodes : list Node.t) :
  Forall2 same_but_layout nodes nodes.
Proof. induction nodes; by constructor. Qed.

Lemma Forall2_same_but_layout_trans (l1 l2 l3 : list Node.t) :
  Forall2 same_but_layout l1 l2 → Forall2 same_but_layout l2 l3 →
  Forall2 same_but_layout l1 l3.
Proof.
  intros H12. revert l3. induction H12 as [|a b l1 l2 Hab H12 IH]; intros l3 H23.
  - by inversion H23.
  - inversion H23 as [|b' c l2' l3' Hbc H23']; subst.
    constructor; [by eapply same_but_layout_trans | by apply IH].
Qed.

Lemma organized_same_but_layout (layer_count : Z) (nodes : list Node.t) :
  Forall2 same_but_layout nodes (organized layer_count nodes).
Proof.
  unfold organized. generalize (-500). revert nodes.
  induction (seqZ 0 layer_count) as [|i l IH]; intros nodes x.
  - apply Forall2_same_but_layout_refl.
  - cbn [foldl].
    assert (Forall2 same_but_layout nodes (organize_step (nodes, x) i).1) as Hstep.
    { unfold organize_step. destruct (nodes_get nodes (str i)).
      - apply nodes_update_same_but_layout.
      - apply Forall2_same_but_layout_refl. }
    destruct (organize_step (nodes, x) i) as [nodes1 x1].
    eapply Forall2_same_but_layout_trans; [exact Hstep | apply IH].
Qed.

(** [organize_layer_group_nodes] changes widths and locations only: when it
    returns, the tree has as many nodes as before, and the node at each
    position is the node that was there up to its width and location. *)
Theorem organize_layer_group_nodes_layout_only (h h' : bpy)
  (nodes nodes' : list Node.t) :
  organize_layer_group_nodes h = Returns tt h' →
  active_nodes h = Some nodes →
  active_nodes h' = Some nodes' →
  length nodes' = length nodes ∧
  ∀ i n n', nodes !! i = Some n → nodes' !! i = Some n' →
    Node.name n' = Node.name n ∧ Node.label n' = Node.label n ∧
    Node.bl_idname n' = Node.bl_idname n ∧
    Node.node_tree n' = Node.node_tree n ∧
    Node.inputs n' = Node.inputs n ∧ Node.outputs n' = Node.outputs n.
Proof.
  intros Hrun Hnodes Hnodes'.
  destruct (organize_layer_group_nodes_run h nodes Hnodes) as (r & _ & Hrun').
  rewrite Hrun' in Hrun. injection Hrun as <-.
  rewrite active_nodes_active_tree, active_tree_map_active_node_tree in Hnodes'.
  rewrite active_nodes_active_tree in Hnodes.
  destruct (active_tree h) as [tree|]; [| done].
  injection Hnodes as <-. injection Hnodes' as <-. simpl.
  pose proof (organized_same_but_layout r (NodeTree.nodes tree)) as Hall.
  split; [symmetry; by eapply Forall2_length |].
  intros i n n' Hn Hn'.
  pose proof (Forall2_lookup_lr _ _ _ _ _ _ Hall Hn Hn') as Hsame.
  unfold same_but_layout in Hsame. destruct n, n'. by injection Hsame as -> -> -> -> -> ->.
Qed.

Lemma organize_layer_group_nodes_layout_only_witness :
  ∃ h' nodes',
    organize_layer_group_nodes
      (editing "MESH" [principled_bsdf_node; layer_group_node "0"] [] (-1))
      = Returns tt h' ∧
    active_nodes h' = Some nodes' ∧ length nodes' = 2%nat.
Proof.
  eexists _, _. split; [vm_compute; reflexivity |]. split; [reflexivity |].
  match goal with
  | |- length ?x = _ =>
      destruct (organize_layer_group_nodes_layout_only
                  (editing "MESH" [principled_bsdf_node; layer_group_node "0"]
                     [] (-1)) _
                  [principled_bsdf_node; layer_group_node "0"] x
                  ltac:(vm_compute; reflexivity) eq_refl eq_refl) as [Hlen _]
  end.
  exact Hlen.
Defined.

(** ** The node that the add command makes *)

Lemma bind_run {A B : Type} (m : py A) (f : A → py B) (h h1 : bpy) (a : A) :
  m h = Returns a h1 → (m ≫= f) h = f a h1.
Proof. intros Hm. unfold mbind, py_bind. by rewrite Hm. Qed.

Lemma add_material_layer_slot_keeps_host (h h' : bpy) (idx : Z) :
  add_material_layer_slot h = Returns idx h' →
  context_active_object h' = context_active_object h ∧
  data_node_groups h' = data_node_groups h.
Proof.
  rewrite add_material_layer_slot_run.
  destruct (draw_unique_slot_id _ _) as [[id draws']|]; [| done].
  by intros [= <- <-].
Qed.

Lemma last_same_but_layout (nodes nodes' : list Node.t) (n : Node.t) :
  Forall2 same_but_layout nodes nodes' →
  last nodes = Some n →
  ∃ n', last nodes' = Some n' ∧ same_but_layout n n'.
Proof.
  intros Hall. induction Hall as [|a b l l' Hab Hall IH]; [done |].
  destruct Hall as [|a2 b2 l2 l2' Hab2 Hall2].
  - simpl. intros [= <-]. by exists b.
  - intros Hlast. apply IH. exact Hlast.
Qed.

Lemma bind_get {B : Type} (k : bpy → py B) (h : bpy) :
  (get ≫= k) h = k h h.
Proof. done. Qed.

Lemma bind_modify {B : Type} (f : bpy → bpy) (k : unit → py B) (h : bpy) :
  (modify f ≫= k) h = k tt (f h).
Proof. done. Qed.

Lemma bind_attr_of_Some {A B : Type} (a : A) (k : A → py B) (h : bpy) :
  (attr_of (Some a) ≫= k) h = k a h.
Proof. done. Qed.

Lemma length_append (s1 s2 : string) :
  String.length (s1 +:+ s2) = (String.length s1 + String.length s2)%nat.
Proof.
  induction s1 as [|c s1 IH]; [done |].
  rewrite append_String. simpl. by rewrite IH.
Qed.

Lemma clip_short (limit : nat) (name : string) :
  (String.length name ≤ limit)%nat → clip limit name = name.
Proof. intros Hlen. unfold clip. by rewrite bool_decide_eq_true_2. Qed.

Lemma unique_name_free (taken : list string) (name : string) :
  (String.length name ≤ name_limit)%nat →
  name ∉ taken →
  unique_name taken name = name.
Proof.
  intros Hlen Hfree. unfold unique_name. rewrite (clip_short _ _ Hlen).
  by rewrite bool_decide_eq_false_2.
Qed.

Lemma MATLAYER_OT_add_material_layer_new_node (utils : blender_addon_utils)
  (h : bpy) (o : Object.t) (m : Material.t) (raw : Z) (g : NodeTree.t)
  (groups' : list NodeTree.t) :
  context_active_object h = Some o →
  Object.type o = "MESH" →
  Object.active_material o = Some m →
  raw ∈ random_draws h →
  str (randrange 0 999999 raw) ∉ slot_ids (scene_matlayer_layers h) →
  append_node_group utils "ML_DefaultLayer" true
    (append_default_node_groups utils (data_node_groups h))
    = (Some g, groups') →
  str (selected h) ∉ Node.name <$> NodeTree.nodes (Material.node_tree m) →
  format_layer_group_node_name (Material.name m) (selected h)
    ∉ other_group_names (NodeTree.name g) groups' →
  (String.length (format_layer_group_node_name (Material.name m) (selected h))
   ≤ name_limit)%nat →
  ∃ h' nodes' n,
    state_after (MATLAYER_OT_add_material_layer_execute utils h) = Some h' ∧
    active_nodes h' = Some nodes' ∧
    Node.name <$> nodes'
      = (Node.name <$> NodeTree.nodes (Material.node_tree m))
          ++ [str (selected h)] ∧
    last nodes' = Some n ∧
    Node.name n = str (selected h) ∧
    Node.label n = "Layer " +:+ str (selected h) ∧
    Node.bl_idname n = "ShaderNodeGroup" ∧
    Node.node_tree n
      = Some (format_layer_group_node_name (Material.name m) (selected h)).
Proof.
  intros Ho Hmesh Hm Hin Hfresh Happend Hnode Hgroup Hlimit.
  assert (String.length (str (selected h)) ≤ name_limit)%nat as Hlimit'.
  { unfold format_layer_group_node_name in Hlimit.
    rewrite !length_append in Hlimit. lia. }
  unfold MATLAYER_OT_add_material_layer_execute.
  rewrite bind_get. cbv zeta. rewrite bind_modify.
  set (h1 := set_node_groups
               (append_default_node_groups utils (data_node_groups h)) h).
  rewrite Ho, bind_attr_of_Some.
  rewrite bool_decide_eq_false_2 by (rewrite Hmesh; by intros Hne).
  assert (Object.material_slots o !! Object.active_material_index o
          = Some (Some m)) as Hslot.
  { unfold Object.active_material in Hm.
    by destruct (Object.material_slots o !! Object.active_material_index o)
      as [[m0|]|]; simplify_eq. }
  assert (len (Object.material_slots o) ≠ 0) as Hlen.
  { apply lookup_lt_Some in Hslot. unfold len. lia. }
  rewrite (bool_decide_eq_false_2 _ Hlen), Hslot.
  rewrite (bind_run _ _ h1 h1 tt); [| reflexivity].
  destruct (add_material_layer_slot_finds h1 raw Hin Hfresh) as [h2 Hadd].
  rewrite (bind_run _ _ h1 h2 _ Hadd).
  destruct (add_material_layer_slot_keeps_host _ _ _ Hadd) as [Ho2 Hg2].
  change (selected h1) with (selected h).
  assert (context_active_object h2 = Some o) as Ho2' by (by rewrite Ho2).
  rewrite (bind_run _ _ h2 h2 _ (active_object_active_material_run h2 o Ho2')).
  rewrite Hm.
  change (data_node_groups h1)
    with (append_default_node_groups utils (data_node_groups h)) in Hg2.
  set (h3 := set_node_groups groups' h2).
  rewrite (bind_run (call_append_node_group utils "ML_DefaultLayer" true) _
             h2 h3 (Some g)).
  2: { unfold call_append_node_group, mbind, py_bind, get.
       by rewrite Hg2, Happend. }
  rewrite bind_attr_of_Some. cbv zeta. rewrite bind_attr_of_Some.
  rewrite bind_get. cbv zeta.
  change (data_node_groups h3) with groups'.
  rewrite (unique_name_free _ _ Hlimit Hgroup).
  set (name := format_layer_group_node_name (Material.name m) (selected h)).
  rewrite bind_modify.
  set (h4 := set_node_groups
               (node_groups_rename (NodeTree.name g) name (data_node_groups h3))
               h3).
  unfold modify_active_node_tree. rewrite !bind_modify.
  rewrite map_active_node_tree_twice.
  match goal with
  | |- context [map_active_node_tree ?f h4] =>
      set (f65 := f); set (h6 := map_active_node_tree f65 h4)
  end.
  assert (active_tree h4 = Some (Material.node_tree m)) as Htree4.
  { unfold active_tree. change (context_active_object h4)
      with (context_active_object h2). rewrite Ho2'. simpl. by rewrite Hm. }
  assert (active_tree h6 = Some (f65 (Material.node_tree m))) as Htree6
    by (unfold h6; by rewrite active_tree_map_active_node_tree, Htree4).
  set (nodes6 := NodeTree.nodes (f65 (Material.node_tree m))) in *.
  assert (active_nodes h6 = Some nodes6) as Hnodes6
    by (by rewrite active_nodes_active_tree, Htree6).
  set (new_node := Node.set_label ("Layer " +:+ str (selected h))
                     (Node.set_name (str (selected h))
                        (set_node_tree (NodeTree.set_name name g)
                           (Node.mk
                              (unique_name
                                 (Node.name
                                    <$> NodeTree.nodes (Material.node_tree m))
                                 "Group")
                              "" "ShaderNodeGroup" None [] [] 140 (0, 0))))).
  assert (nodes6 = NodeTree.nodes (Material.node_tree m) ++ [new_node])
    as Hnodes6eq.
  { unfold nodes6, f65, compose, nodes_new. simpl.
    rewrite update_last_snoc, removelast_last.
    by rewrite (unique_name_free _ _ Hlimit' Hnode). }
  destruct (organize_layer_group_nodes_run h6 nodes6 Hnodes6) as (r & _ & Horg).
  set (h7 := map_active_node_tree
               (λ t, NodeTree.set_nodes (organized r (NodeTree.nodes t)) t) h6)
    in Horg.
  rewrite (bind_run organize_layer_group_nodes _ h6 h7 tt Horg).
  assert (active_nodes h7 = Some (organized r nodes6)) as Hnodes7.
  { unfold h7. rewrite active_nodes_active_tree,
      active_tree_map_active_node_tree, Htree6. done. }
  pose proof (only_links_connect_layer_group_nodes h7) as Hconn.
  unfold mbind, py_bind.
  destruct (last_same_but_layout nodes6 (organized r nodes6) new_node)
    as (n & Hlast & Hsame).
  { apply organized_same_but_layout. }
  { rewrite Hnodes6eq. apply last_snoc. }
  assert (∀ h', without_links h' = without_links h7 →
            active_nodes h' = Some (organized r nodes6)) as Hfinal.
  { intros h' Heq. apply without_links_frame in Heq as (_ & _ & _ & Hn).
    by rewrite Hn. }
  assert (Node.name n = str (selected h) ∧
          Node.label n = "Layer " +:+ str (selected h) ∧
          Node.bl_idname n = "ShaderNodeGroup" ∧
          Node.node_tree n = Some name) as Hn.
  { unfold same_but_layout in Hsame. destruct n. unfold new_node in Hsame.
    by injection Hsame as -> -> -> -> _ _. }
  assert (Node.name <$> organized r nodes6
          = (Node.name <$> NodeTree.nodes (Material.node_tree m))
              ++ [str (selected h)]) as Hnames.
  { by rewrite organized_names, Hnodes6eq, fmap_app. }
  destruct (connect_layer_group_nodes h7) as [[] h8|e h8|]; [| | done].
  - exists h8, (organized r nodes6), n. split; [done |].
    split; [by apply Hfinal |]. by split.
  - exists h8, (organized r nodes6), n. split; [done |].
    split; [by apply Hfinal |]. by split.
Qed.

(** The node of a new layer is named after the selection, not after the
    place of the new slot.  On a mesh with an active material [m], when a
    free id is among the draws and the template library hands out the layer
    group, and when the names that the command assigns are free (no node of
    the material's tree is named [str s], no other node group is named
    "<material>_<s>") and within the host's limit for names, the Add
    Material Layer command (whether it then returns or ends in an exception
    of [connect_layer_group_nodes]) has put one node at the end of the
    material's tree, and the names of the nodes before it are unchanged.
    That node is a group node with the name [str s], the label "Layer "
    followed by [str s] and the node group "<material>_<s>", where [s] is the
    selected index before the command. *)
Theorem MATLAYER_OT_add_material_layer_names_node_by_selection
  (utils : blender_addon_utils) (h : bpy) (o : Object.t) (m : Material.t)
  (raw : Z) (g : NodeTree.t) (groups' : list NodeTree.t) :
  context_active_object h = Some o →
  Object.type o = "MESH" →
  Object.active_material o = Some m →
  raw ∈ random_draws h →
  str (randrange 0 999999 raw) ∉ slot_ids (scene_matlayer_layers h) →
  append_node_group utils "ML_DefaultLayer" true
    (append_default_node_groups utils (data_node_groups h))
    = (Some g, groups') →
  str (selected h) ∉ Node.name <$> NodeTree.nodes (Material.node_tree m) →
  format_layer_group_node_name (Material.name m) (selected h)
    ∉ other_group_names (NodeTree.name g) groups' →
  (String.length (format_layer_group_node_name (Material.name m) (selected h))
   ≤ name_limit)%nat →
  ∃ h' nodes' n,
    state_after (MATLAYER_OT_add_material_layer_execute utils h) = Some h' ∧
    active_nodes h' = Some nodes' ∧
    Node.name <$> nodes'
      = (Node.name <$> NodeTree.nodes (Material.node_tree m))
          ++ [str (selected h)] ∧
    last nodes' = Some n ∧
    Node.name n = str (selected h) ∧
    Node.label n = "Layer " +:+ str (selected h) ∧
    Node.bl_idname n = "ShaderNodeGroup" ∧
    Node.node_tree n
      = Some (format_layer_group_node_name (Material.name m) (selected h)).
Proof. apply MATLAYER_OT_add_material_layer_new_node. Qed.

Lemma MATLAYER_OT_add_material_layer_names_node_by_selection_witness :
  ∃ h' nodes' n,
    state_after
      (MATLAYER_OT_add_material_layer_execute template_library
         (set_random_draws [5]
            (editing "MESH" [principled_bsdf_node; normal_height_mix_node]
               [slot "A"] 2))) = Some h' ∧
    active_nodes h' = Some nodes' ∧
    Node.name <$> nodes' = ["MATLAYER_BSDF"; "NORMAL_HEIGHT_MIX"; "2"] ∧
    last nodes' = Some n ∧
    Node.label n = "Layer 2" ∧
    Node.node_tree n = Some "Wood_2"%string.
Proof.
  destruct (MATLAYER_OT_add_material_layer_names_node_by_selection
              template_library
              (set_random_draws [5]
                 (editing "MESH" [principled_bsdf_node; normal_height_mix_node]
                    [slot "A"] 2))
              (object_of "MESH" [principled_bsdf_node; normal_height_mix_node])
              (material_of [principled_bsdf_node; normal_height_mix_node])
              5 default_layer_group [default_layer_group]
              eq_refl eq_refl eq_refl)
    as (h' & nodes' & n & Hrun & Hnodes & Hnames & Hlast & _ & Hlabel & _ & Htree).
  - by left.
  - apply (bool_decide_unpack _). vm_compute. exact I.
  - vm_compute. reflexivity.
  - apply (bool_decide_unpack _). vm_compute. exact I.
  - apply (bool_decide_unpack _). vm_compute. exact I.
  - vm_compute. lia.
  - by exists h', nodes', n.
Defined.
